(** * FedClusterFHE: a shallow embedding of [contracts/FedClusterFHE.sol]

    The contract keeps encrypted data points, asks a decryption oracle to
    decrypt them, and on the oracle's callback records the plaintext and
    counts the members of each cluster.  Every entry point of the contract
    is a function from the storage to a [Result]: either the new storage
    or the reason of the revert.  A reverted transaction leaves the storage
    as it was ([transact]). *)

From Stdlib Require Import ZArith Lia List.
From stdpp Require Import base option list gmap strings fin_maps.

Local Open Scope Z_scope.

(** ** Solidity values *)

Definition MAX_UINT256 : Z := 2 ^ 256 - 1.
Definition UINT32_MODULUS : Z := 2 ^ 32.

Definition bytes : Type := list Byte.byte.

(** Reasons for which a call reverts. *)
Inductive Revert : Type :=
| Error (reason : string)      (* require(cond, reason) and revert(reason) *)
| Panic (code : Z)             (* 0x11 arithmetic overflow, 0x32 index out of bounds *)
| InvalidSignatures            (* FHE.checkSignatures rejected the proof *)
| AbiDecodeFailure.            (* abi.decode on malformed bytes *)

Inductive Result (A : Type) : Type :=
| Ok (a : A)
| Reverted (r : Revert).
Arguments Ok {A} a.
Arguments Reverted {A} r.

#[export] Instance Result_ret : MRet Result := @Ok.

#[export] Instance Result_bind : MBind Result :=
  fun A B (k : A -> Result B) (m : Result A) =>
    match m with
    | Ok a => k a
    | Reverted r => Reverted r
    end.

Definition AlreadyClustered : Revert := Error "Already clustered".
Definition InvalidRequest : Revert := Error "Invalid request".
Definition ClusterNotFound : Revert := Error "Cluster not found".
Definition PANIC_OVERFLOW : Z := 17.       (* 0x11 *)
Definition PANIC_OUT_OF_BOUNDS : Z := 50.  (* 0x32 *)

(** [x++] and [x += 1] on a [uint256] under checked arithmetic. *)
Definition checked_incr (x : Z) : Result Z :=
  if x <? MAX_UINT256 then Ok (x + 1) else Reverted (Panic PANIC_OVERFLOW).

(** A memory array: reads and writes are bounds-checked. *)
Definition array_set {A : Type} (a : list A) (i : Z) (x : A) : Result (list A) :=
  if (0 <=? i) && (i <? Z.of_nat (length a))
  then Ok (<[Z.to_nat i := x]> a)
  else Reverted (Panic PANIC_OUT_OF_BOUNDS).

Definition array_get {A : Type} (a : list A) (i : Z) : Result A :=
  match (if 0 <=? i then a !! Z.to_nat i else None) with
  | Some x => Ok x
  | None => Reverted (Panic PANIC_OUT_OF_BOUNDS)
  end.

(** A storage mapping: every key reads as the zero value until written. *)
Definition mapping_get `{Countable K} {V : Type} (zero : V) (m : gmap K V) (k : K) : V :=
  default zero (m !! k).

(** [for (uint256 i = first; i <= last; i++) body], as a fold over the
    indices; the [i++] after each round is checked. *)
Fixpoint for_loop {A : Type} (body : Z -> A -> Result A)
    (indices : list Z) (acc : A) : Result A :=
  match indices with
  | [] => Ok acc
  | i :: rest =>
      acc' ← body i acc;
      _ ← checked_incr i;
      for_loop body rest acc'
  end.

(** ** The FHE library and the decryption oracle *)

(** Modelled from the spec: the type [euint32] of the external FHE library
    ("ciphertext handle: an opaque reference to an encrypted value").  A
    handle is modelled by the 32-bit plaintext it encrypts; the null handle
    of a storage slot never written is [Uninit]. *)
Inductive euint32 : Type :=
| Uninit
| Enc (plaintext : Z).

(** Modelled from the spec: what the handle decrypts to. *)
Definition FHE_decrypt (e : euint32) : Z :=
  match e with
  | Uninit => 0
  | Enc v => v
  end.

(** Modelled from the spec: [FHE.isInitialized] of the external FHE library. *)
Definition FHE_isInitialized (e : euint32) : bool :=
  match e with
  | Uninit => false
  | Enc _ => true
  end.

(** Modelled from the spec: [FHE.asEuint32] of the external FHE library
    ("an encrypted zero", "an encrypted one"). *)
Definition FHE_asEuint32 (v : Z) : euint32 := Enc (v mod UINT32_MODULUS).

(** Modelled from the spec: [FHE.add] of the external FHE library, addition
    of two encrypted 32-bit unsigned integers. *)
Definition FHE_add (a b : euint32) : euint32 :=
  Enc ((FHE_decrypt a + FHE_decrypt b) mod UINT32_MODULUS).

(** Modelled from the spec: [FHE.toBytes32], the handle as it is sent to the
    oracle. *)
Definition FHE_toBytes32 (e : euint32) : euint32 := e.

(** The callback a decryption request names. *)
Inductive Selector : Type :=
| performClustering_selector
| decryptClusterStats_selector.

(** Modelled from the spec: the external interfaces of the contract (spec
    section 6), which are not part of the repository.  [keccak256 s] is
    [keccak256(abi.encodePacked(s))] read as an unsigned integer;
    [FHE_requestDecryption n handles callback] is the request id the oracle
    assigns to the request it receives after [n] earlier ones;
    [FHE_checkSignatures] tells whether the proof authenticates the
    cleartext for the request; the two decoders are [abi.decode] at the
    types [(string, string, string)] and [uint32].  A call to the library
    that has no result to report here is taken to return: what the oracle
    or the access-control list of the host chain may refuse is not part of
    the contract. *)
Class FHEVM : Type := {
  keccak256 : string -> Z;
  FHE_requestDecryption : nat -> list euint32 -> Selector -> Z;
  FHE_checkSignatures : Z -> bytes -> bytes -> bool;
  abi_decode_strings : bytes -> option (string * string * string);
  abi_decode_uint32 : bytes -> option Z;
}.

(** ** Storage *)

Record EncryptedDataPoint : Type := {
  edp_id : Z;
  encryptedFeatures : euint32;
  encryptedDataOwner : euint32;
  encryptedClusterId : euint32;
  timestamp : Z;
}.

Record DecryptedDataPoint : Type := {
  features : string;
  dataOwner : string;
  clusterId : string;
  isClustered : bool;
}.

Inductive Event : Type :=
| DataPointSubmitted (id : Z) (timestamp : Z)
| ClusteringRequested (id : Z)
| DataPointClustered (id : Z).

(** The six storage variables of the contract, followed by the log of the
    events it emitted and by the number of decryption requests it sent to
    the oracle so far (the oracle's side of [FHE.requestDecryption]). *)
Record State : Type := {
  dataPointCount : Z;
  encryptedDataPoints : gmap Z EncryptedDataPoint;
  decryptedDataPoints : gmap Z DecryptedDataPoint;
  encryptedClusterStats : gmap string euint32;
  clusterList : list string;
  requestToDataPointId : gmap Z Z;
  events : list Event;
  counterRequest : nat;
}.

Definition zero_EncryptedDataPoint : EncryptedDataPoint :=
  {| edp_id := 0; encryptedFeatures := Uninit; encryptedDataOwner := Uninit;
     encryptedClusterId := Uninit; timestamp := 0 |}.

Definition zero_DecryptedDataPoint : DecryptedDataPoint :=
  {| features := ""; dataOwner := ""; clusterId := ""; isClustered := false |}.

Definition init : State :=
  {| dataPointCount := 0;
     encryptedDataPoints := ∅;
     decryptedDataPoints := ∅;
     encryptedClusterStats := ∅;
     clusterList := [];
     requestToDataPointId := ∅;
     events := [];
     counterRequest := 0%nat |}.

(** Reads of the four mappings. *)
Definition encryptedDataPoint (st : State) (id : Z) : EncryptedDataPoint :=
  mapping_get zero_EncryptedDataPoint (encryptedDataPoints st) id.

Definition decryptedDataPoint (st : State) (id : Z) : DecryptedDataPoint :=
  mapping_get zero_DecryptedDataPoint (decryptedDataPoints st) id.

Definition clusterStats (st : State) (c : string) : euint32 :=
  mapping_get Uninit (encryptedClusterStats st) c.

Definition pendingRequest (st : State) (requestId : Z) : Z :=
  mapping_get 0 (requestToDataPointId st) requestId.

(** ** The entry points *)

Section Contract.
Context {env : FHEVM}.

Definition submitEncryptedDataPoint (st : State)
    (encFeatures encDataOwner encClusterId : euint32)
    (block_timestamp : Z) : Result State :=
  newId ← checked_incr (dataPointCount st);
  Ok {| dataPointCount := newId;
        encryptedDataPoints :=
          <[newId := {| edp_id := newId;
                        encryptedFeatures := encFeatures;
                        encryptedDataOwner := encDataOwner;
                        encryptedClusterId := encClusterId;
                        timestamp := block_timestamp |}]>
            (encryptedDataPoints st);
        decryptedDataPoints :=
          <[newId := {| features := ""; dataOwner := ""; clusterId := "";
                        isClustered := false |}]>
            (decryptedDataPoints st);
        encryptedClusterStats := encryptedClusterStats st;
        clusterList := clusterList st;
        requestToDataPointId := requestToDataPointId st;
        events := events st ++ [DataPointSubmitted newId block_timestamp];
        counterRequest := counterRequest st |}.

(** The modifier [onlyDataOwner] has an empty body. *)
Definition requestFederatedClustering (st : State) (dataPointId : Z)
    : Result State :=
  let dp := encryptedDataPoint st dataPointId in
  if isClustered (decryptedDataPoint st dataPointId)
  then Reverted AlreadyClustered
  else
    let ciphertexts :=
      [FHE_toBytes32 (encryptedFeatures dp);
       FHE_toBytes32 (encryptedDataOwner dp);
       FHE_toBytes32 (encryptedClusterId dp)] in
    let reqId :=
      FHE_requestDecryption (counterRequest st) ciphertexts
        performClustering_selector in
    Ok {| dataPointCount := dataPointCount st;
          encryptedDataPoints := encryptedDataPoints st;
          decryptedDataPoints := decryptedDataPoints st;
          encryptedClusterStats := encryptedClusterStats st;
          clusterList := clusterList st;
          requestToDataPointId :=
            <[reqId := dataPointId]> (requestToDataPointId st);
          events := events st ++ [ClusteringRequested dataPointId];
          counterRequest := S (counterRequest st) |}.

Definition performClustering (st : State) (requestId : Z)
    (cleartexts proof : bytes) : Result State :=
  let dataPointId := pendingRequest st requestId in
  if dataPointId =? 0 then Reverted InvalidRequest
  else
    let dDp := decryptedDataPoint st dataPointId in
    if isClustered dDp then Reverted AlreadyClustered
    else if negb (FHE_checkSignatures requestId cleartexts proof)
    then Reverted InvalidSignatures
    else
      match abi_decode_strings cleartexts with
      | None => Reverted AbiDecodeFailure
      | Some (features', dataOwner', clusterId') =>
          let dDp' :=
            {| features := features'; dataOwner := dataOwner';
               clusterId := clusterId'; isClustered := true |} in
          let fresh :=
            negb (FHE_isInitialized
                    (mapping_get Uninit (encryptedClusterStats st)
                       (clusterId dDp'))) in
          let stats1 :=
            if fresh
            then <[clusterId dDp' := FHE_asEuint32 0]> (encryptedClusterStats st)
            else encryptedClusterStats st in
          let clusterList1 :=
            if fresh then clusterList st ++ [clusterId dDp']
            else clusterList st in
          let stats2 :=
            <[clusterId dDp' :=
                FHE_add (mapping_get Uninit stats1 (clusterId dDp'))
                        (FHE_asEuint32 1)]> stats1 in
          Ok {| dataPointCount := dataPointCount st;
                encryptedDataPoints := encryptedDataPoints st;
                decryptedDataPoints :=
                  <[dataPointId := dDp']> (decryptedDataPoints st);
                encryptedClusterStats := stats2;
                clusterList := clusterList1;
                requestToDataPointId := requestToDataPointId st;
                events := events st ++ [DataPointClustered dataPointId];
                counterRequest := counterRequest st |}
      end.

Definition getDecryptedDataPoint (st : State) (dataPointId : Z)
    : string * string * string * bool :=
  let dp := decryptedDataPoint st dataPointId in
  (features dp, dataOwner dp, clusterId dp, isClustered dp).

Definition getEncryptedClusterStats (st : State) (c : string) : euint32 :=
  clusterStats st c.

Definition bytes32ToUint (b : Z) : Z := b.

Definition requestClusterStatsDecryption (st : State) (c : string)
    : Result State :=
  let stats := clusterStats st c in
  if negb (FHE_isInitialized stats) then Reverted ClusterNotFound
  else
    let ciphertexts := [FHE_toBytes32 stats] in
    let reqId :=
      FHE_requestDecryption (counterRequest st) ciphertexts
        decryptClusterStats_selector in
    Ok {| dataPointCount := dataPointCount st;
          encryptedDataPoints := encryptedDataPoints st;
          decryptedDataPoints := decryptedDataPoints st;
          encryptedClusterStats := encryptedClusterStats st;
          clusterList := clusterList st;
          requestToDataPointId :=
            <[reqId := bytes32ToUint (keccak256 c)]> (requestToDataPointId st);
          events := events st;
          counterRequest := S (counterRequest st) |}.

(** The loop of [getClusterFromHash] over [clusterList]. *)
Fixpoint getClusterFromHash_loop (clusters : list string) (hash : Z)
    : Result string :=
  match clusters with
  | [] => Reverted ClusterNotFound
  | c :: rest =>
      if bytes32ToUint (keccak256 c) =? hash then Ok c
      else getClusterFromHash_loop rest hash
  end.

Definition getClusterFromHash (st : State) (hash : Z) : Result string :=
  getClusterFromHash_loop (clusterList st) hash.

Definition decryptClusterStats (st : State) (requestId : Z)
    (cleartexts proof : bytes) : Result State :=
  let clusterHash := pendingRequest st requestId in
  _ ← getClusterFromHash st clusterHash;
  if negb (FHE_checkSignatures requestId cleartexts proof)
  then Reverted InvalidSignatures
  else
    match abi_decode_uint32 cleartexts with
    | None => Reverted AbiDecodeFailure
    | Some _ => Ok st
    end.

(** Whether record [i] is a clustered member of cluster [c], the test of
    the loop of [calculateClusterCentroids]. *)
Definition is_member (st : State) (c : string) (i : Z) : bool :=
  isClustered (decryptedDataPoint st i)
  && (keccak256 (clusterId (decryptedDataPoint st i)) =? keccak256 c).

(** One round of the loop of [calculateClusterCentroids]; the state of
    the loop is [(count, allFeatures)]. *)
Definition centroid_body (st : State) (c : string) (i : Z)
    (acc : Z * list string) : Result (Z * list string) :=
  let '(count, allFeatures) := acc in
  if is_member st c i then
    allFeatures' ← array_set allFeatures count
                      (features (decryptedDataPoint st i));
    count' ← checked_incr count;
    Ok (count', allFeatures')
  else Ok (count, allFeatures).

(** [string[] memory allFeatures;] is never allocated: it is the empty
    memory array. *)
Definition calculateClusterCentroids (st : State) (c : string)
    : Result string :=
  let count := 0 in
  let allFeatures : list string := [] in
  acc ← for_loop (centroid_body st c)
           (seqZ 1 (dataPointCount st)) (count, allFeatures);
  let '(count, allFeatures) := acc in
  if 0 <? count then array_get allFeatures 0 else Ok "".

Definition calculateSimilarity (features1 features2 : string) : Z :=
  if keccak256 features1 =? keccak256 features2 then 100 else 50.

(** First loop of [findSimilarClusters]: count the clusters to return. *)
Fixpoint findSimilarClusters_count (st : State) (targetFeatures : string)
    (similarityThreshold : Z) (clusters : list string) (count : Z)
    : Result Z :=
  match clusters with
  | [] => Ok count
  | c :: rest =>
      centroid ← calculateClusterCentroids st c;
      if similarityThreshold <=? calculateSimilarity targetFeatures centroid
      then
        count' ← checked_incr count;
        findSimilarClusters_count st targetFeatures similarityThreshold
          rest count'
      else
        findSimilarClusters_count st targetFeatures similarityThreshold
          rest count
  end.

(** Second loop: write them into the array allocated for the result. *)
Fixpoint findSimilarClusters_fill (st : State) (targetFeatures : string)
    (similarityThreshold : Z) (clusters : list string)
    (similarClusters : list string) (index : Z) : Result (list string) :=
  match clusters with
  | [] => Ok similarClusters
  | c :: rest =>
      centroid ← calculateClusterCentroids st c;
      if similarityThreshold <=? calculateSimilarity targetFeatures centroid
      then
        similarClusters' ← array_set similarClusters index c;
        index' ← checked_incr index;
        findSimilarClusters_fill st targetFeatures similarityThreshold
          rest similarClusters' index'
      else
        findSimilarClusters_fill st targetFeatures similarityThreshold
          rest similarClusters index
  end.

Definition findSimilarClusters (st : State) (targetFeatures : string)
    (similarityThreshold : Z) : Result (list string) :=
  count ← findSimilarClusters_count st targetFeatures similarityThreshold
             (clusterList st) 0;
  let similarClusters := replicate (Z.to_nat count) "" in
  findSimilarClusters_fill st targetFeatures similarityThreshold
    (clusterList st) similarClusters 0.

(** ** Transactions *)

Inductive Call : Type :=
| SubmitEncryptedDataPoint (encFeatures encDataOwner encClusterId : euint32)
    (block_timestamp : Z)
| RequestFederatedClustering (dataPointId : Z)
| PerformClustering (requestId : Z) (cleartexts proof : bytes)
| RequestClusterStatsDecryption (c : string)
| DecryptClusterStats (requestId : Z) (cleartexts proof : bytes).

Definition dispatch (st : State) (call : Call) : Result State :=
  match call with
  | SubmitEncryptedDataPoint ef eo ec ts =>
      submitEncryptedDataPoint st ef eo ec ts
  | RequestFederatedClustering id => requestFederatedClustering st id
  | PerformClustering r ct pf => performClustering st r ct pf
  | RequestClusterStatsDecryption c => requestClusterStatsDecryption st c
  | DecryptClusterStats r ct pf => decryptClusterStats st r ct pf
  end.

(** A transaction runs to completion or reverts wholly. *)
Definition transact (st : State) (call : Call) : State :=
  match dispatch st call with
  | Ok st' => st'
  | Reverted _ => st
  end.

Definition run (st : State) (calls : list Call) : State :=
  foldl transact st calls.

Inductive reachable : State -> Prop :=
| reachable_init : reachable init
| reachable_step st call : reachable st -> reachable (transact st call).

(** A submission, as a call: the three handles and the block timestamp. *)
Definition submission_call (submission : euint32 * euint32 * euint32 * Z)
    : Call :=
  let '(encFeatures, encDataOwner, encClusterId, block_timestamp) := submission in
  SubmitEncryptedDataPoint encFeatures encDataOwner encClusterId block_timestamp.

(** The request id that [requestFederatedClustering st dataPointId]
    receives from the oracle, and the one that
    [requestClusterStatsDecryption st c] receives. *)
Definition clustering_request_id (st : State) (dataPointId : Z) : Z :=
  let dp := encryptedDataPoint st dataPointId in
  FHE_requestDecryption (counterRequest st)
    [FHE_toBytes32 (encryptedFeatures dp);
     FHE_toBytes32 (encryptedDataOwner dp);
     FHE_toBytes32 (encryptedClusterId dp)]
    performClustering_selector.

Definition stats_request_id (st : State) (c : string) : Z :=
  FHE_requestDecryption (counterRequest st)
    [FHE_toBytes32 (clusterStats st c)] decryptClusterStats_selector.

(** The request ids that a call registers in [requestToDataPointId]: one
    for a request that goes through, none for any other call. *)
Definition registered_by (st : State) (call : Call) : list Z :=
  match call, dispatch st call with
  | RequestFederatedClustering id, Ok _ => [clustering_request_id st id]
  | RequestClusterStatsDecryption c, Ok _ => [stats_request_id st c]
  | _, _ => []
  end.

(** The request ids registered while [calls] run from [st]. *)
Fixpoint registered_ids (st : State) (calls : list Call) : list Z :=
  match calls with
  | [] => []
  | call :: rest => registered_by st call ++ registered_ids (transact st call) rest
  end.

(** The oracle's contract (spec section 3): the ids it assigns to distinct
    requests are distinct. *)
Definition oracle_unique : Prop :=
  forall (m n : nat) (h1 h2 : list euint32) (s1 s2 : Selector),
    FHE_requestDecryption m h1 s1 = FHE_requestDecryption n h2 s2 -> m = n.

(** The ids carried by the [DataPointSubmitted] events of a log, oldest
    first. *)
Fixpoint submitted_ids (log : list Event) : list Z :=
  match log with
  | [] => []
  | DataPointSubmitted id _ :: rest => id :: submitted_ids rest
  | _ :: rest => submitted_ids rest
  end.

(** The clusters that [findSimilarClusters] is meant to return, in the
    words of the specification: those among the known clusters whose
    similarity score, 100 when the centroid equals the target and 50
    otherwise, reaches the threshold. *)
Definition similarClusters_spec (centroid : string -> string)
    (targetFeatures : string) (similarityThreshold : Z)
    (clusters : list string) : list string :=
  filter
    (fun c => similarityThreshold <= calculateSimilarity targetFeatures (centroid c))
    clusters.

End Contract.

(** ** A small instance of the external interfaces

    Used to run the contract on concrete inputs: hashing is an injective
    numbering of the strings, the oracle numbers its requests from 0, a
    proof is valid when it is not empty, a cleartext of three bytes decodes
    to three one-character strings, and a cleartext of one byte decodes to
    the number of that byte. *)

Definition string_of_byte (b : Byte.byte) : string :=
  String (Ascii.ascii_of_byte b) EmptyString.

Definition test_FHEVM : FHEVM :=
  {| keccak256 := fun s => Z.pos (encode s);
     FHE_requestDecryption := fun n _ _ => Z.of_nat n;
     FHE_checkSignatures :=
       fun _ _ proof => match proof with [] => false | _ => true end;
     abi_decode_strings :=
       fun cleartexts =>
         match cleartexts with
         | [f; o; c] => Some (string_of_byte f, string_of_byte o, string_of_byte c)
         | _ => None
         end;
     abi_decode_uint32 :=
       fun cleartexts =>
         match cleartexts with
         | [b] => Some (Z.of_N (Byte.to_N b))
         | _ => None
         end |}.

Definition valid_proof : bytes := [Byte.x01].
Definition invalid_proof : bytes := [].

(** Cleartexts whose third string is the cluster ["A"], resp. ["B"]. *)
Definition cleartext_A : bytes := [Byte.x66; Byte.x6f; Byte.x41].
Definition cleartext_B : bytes := [Byte.x67; Byte.x6f; Byte.x42].

(** One data point submitted, requested and clustered into ["A"]. *)
Definition one_clustered_calls : list Call :=
  [SubmitEncryptedDataPoint (Enc 7) (Enc 8) (Enc 9) 1000;
   RequestFederatedClustering 1;
   PerformClustering 0 cleartext_A valid_proof].

Definition one_clustered : State :=
  run (env := test_FHEVM) init one_clustered_calls.

(** The same callback, before any data point is submitted: the request
    names the id 1, which no submission has assigned yet. *)
Definition clustered_before_submission : State :=
  run (env := test_FHEVM) init
    [RequestFederatedClustering 1;
     PerformClustering 0 cleartext_A valid_proof].

(** One data point submitted and its clustering requested: the request
    with id 0 is pending. *)
Definition one_requested : State :=
  run (env := test_FHEVM) init
    [SubmitEncryptedDataPoint (Enc 7) (Enc 8) (Enc 9) 1000;
     RequestFederatedClustering 1].

(** One more data point clustered into "A" on the test instance, after [k]
    such rounds: the submission takes the id [k + 1] and the oracle gives
    the request the id [k]. *)
Definition clustering_round (k : nat) : list Call :=
  [SubmitEncryptedDataPoint (Enc 7) (Enc 8) (Enc 9) 1000;
   RequestFederatedClustering (Z.of_nat k + 1);
   PerformClustering (Z.of_nat k) cleartext_A valid_proof].

(** The state of the test instance after [n] rounds. *)
Fixpoint after_rounds (n : nat) : State :=
  match n with
  | O => init
  | S k => run (env := test_FHEVM) (after_rounds k) (clustering_round k)
  end.

(** The number of rounds after which the aggregate of "A" is the largest
    32-bit unsigned integer. *)
Definition wrap_rounds : nat := Z.to_nat (UINT32_MODULUS - 1).

(** The number of [DataPointClustered] events of a log. *)
Fixpoint clustered_events (log : list Event) : Z :=
  match log with
  | [] => 0
  | DataPointClustered _ :: rest => 1 + clustered_events rest
  | _ :: rest => clustered_events rest
  end.

(** The sum of what the aggregates of the given clusters decrypt to. *)
Fixpoint aggregate_sum (st : State) (clusters : list string) : Z :=
  match clusters with
  | [] => 0
  | c :: rest => FHE_decrypt (clusterStats st c) + aggregate_sum st rest
  end.

(** The sum of the aggregates of all registered clusters. *)
Definition aggregate_total (st : State) : Z :=
  aggregate_sum st (clusterList st).

(** * Properties *)

Section Properties.
Context {env : FHEVM}.

(** ** Transactions and traces *)

Lemma transact_ok (st st' : State) (call : Call) :
  dispatch st call = Ok st' -> transact st call = st'.
Proof. unfold transact. by intros ->. Qed.

Lemma transact_reverted (st : State) (call : Call) (r : Revert) :
  dispatch st call = Reverted r -> transact st call = st.
Proof. unfold transact. by intros ->. Qed.

Lemma run_app (st : State) (calls1 calls2 : list Call) :
  run st (calls1 ++ calls2) = run (run st calls1) calls2.
Proof. unfold run. apply foldl_app. Qed.

Lemma run_reachable (st : State) (calls : list Call) :
  reachable st -> reachable (run st calls).
Proof.
  revert st. induction calls as [|call calls IH]; intros st Hst; [done|].
  apply IH. by constructor.
Qed.

Lemma reachable_run (st : State) :
  reachable st -> exists calls, st = run init calls.
Proof.
  induction 1 as [|st call _ [calls ->]].
  - by exists [].
  - exists (calls ++ [call]). by rewrite run_app.
Qed.

(** What each entry point leaves alone. *)
Lemma submit_inv (st st' : State) ef eo ec ts :
  submitEncryptedDataPoint st ef eo ec ts = Ok st' ->
  dataPointCount st < MAX_UINT256
  /\ dataPointCount st' = dataPointCount st + 1
  /\ encryptedDataPoints st' =
       <[dataPointCount st + 1 :=
           {| edp_id := dataPointCount st + 1; encryptedFeatures := ef;
              encryptedDataOwner := eo; encryptedClusterId := ec;
              timestamp := ts |}]> (encryptedDataPoints st)
  /\ decryptedDataPoints st' =
       <[dataPointCount st + 1 := zero_DecryptedDataPoint]> (decryptedDataPoints st)
  /\ encryptedClusterStats st' = encryptedClusterStats st
  /\ clusterList st' = clusterList st
  /\ requestToDataPointId st' = requestToDataPointId st
  /\ events st' = events st ++ [DataPointSubmitted (dataPointCount st + 1) ts]
  /\ counterRequest st' = counterRequest st.
Proof.
  unfold submitEncryptedDataPoint, checked_incr.
  destruct (Z.ltb_spec (dataPointCount st) MAX_UINT256); simpl; [|done].
  intros [= <-]. simpl. by repeat split.
Qed.

Lemma request_clustering_inv (st st' : State) (id : Z) :
  requestFederatedClustering st id = Ok st' ->
  isClustered (decryptedDataPoint st id) = false
  /\ dataPointCount st' = dataPointCount st
  /\ encryptedDataPoints st' = encryptedDataPoints st
  /\ decryptedDataPoints st' = decryptedDataPoints st
  /\ encryptedClusterStats st' = encryptedClusterStats st
  /\ clusterList st' = clusterList st
  /\ requestToDataPointId st' =
       <[clustering_request_id st id := id]> (requestToDataPointId st)
  /\ events st' = events st ++ [ClusteringRequested id]
  /\ counterRequest st' = S (counterRequest st).
Proof.
  unfold requestFederatedClustering.
  destruct (isClustered (decryptedDataPoint st id)); [done|].
  intros [= <-]. simpl. by repeat split.
Qed.

Lemma request_stats_inv (st st' : State) (c : string) :
  requestClusterStatsDecryption st c = Ok st' ->
  FHE_isInitialized (clusterStats st c) = true
  /\ dataPointCount st' = dataPointCount st
  /\ encryptedDataPoints st' = encryptedDataPoints st
  /\ decryptedDataPoints st' = decryptedDataPoints st
  /\ encryptedClusterStats st' = encryptedClusterStats st
  /\ clusterList st' = clusterList st
  /\ requestToDataPointId st' =
       <[stats_request_id st c := bytes32ToUint (keccak256 c)]> (requestToDataPointId st)
  /\ events st' = events st
  /\ counterRequest st' = S (counterRequest st).
Proof.
  unfold requestClusterStatsDecryption.
  destruct (FHE_isInitialized (clusterStats st c)); simpl; [|done].
  intros [= <-]. simpl. by repeat split.
Qed.

Lemma decrypt_stats_inv (st st' : State) r ct pf :
  decryptClusterStats st r ct pf = Ok st' -> st' = st.
Proof.
  unfold decryptClusterStats.
  destruct (getClusterFromHash st (pendingRequest st r)); simpl; [|done].
  destruct (FHE_checkSignatures r ct pf); simpl; [|done].
  destruct (abi_decode_uint32 ct); [|done].
  by intros [= <-].
Qed.

(** The storage after a callback of [performClustering] that goes through. *)
Lemma perform_inv (st st' : State) r ct pf :
  performClustering st r ct pf = Ok st' ->
  exists f o c,
    pendingRequest st r <> 0
    /\ isClustered (decryptedDataPoint st (pendingRequest st r)) = false
    /\ FHE_checkSignatures r ct pf = true
    /\ abi_decode_strings ct = Some (f, o, c)
    /\ dataPointCount st' = dataPointCount st
    /\ encryptedDataPoints st' = encryptedDataPoints st
    /\ decryptedDataPoints st' =
         <[pendingRequest st r :=
             {| features := f; dataOwner := o; clusterId := c;
                isClustered := true |}]> (decryptedDataPoints st)
    /\ encryptedClusterStats st' =
         <[c := FHE_add (if FHE_isInitialized (clusterStats st c)
                         then clusterStats st c else FHE_asEuint32 0)
                        (FHE_asEuint32 1)]> (encryptedClusterStats st)
    /\ clusterList st' =
         (if FHE_isInitialized (clusterStats st c)
          then clusterList st else clusterList st ++ [c])
    /\ requestToDataPointId st' = requestToDataPointId st
    /\ events st' = events st ++ [DataPointClustered (pendingRequest st r)]
    /\ counterRequest st' = counterRequest st.
Proof.
  unfold performClustering.
  destruct (Z.eqb_spec (pendingRequest st r) 0) as [|Hne]; [done|].
  destruct (isClustered (decryptedDataPoint st (pendingRequest st r))) eqn:Hcl; [done|].
  destruct (FHE_checkSignatures r ct pf) eqn:Hsig; simpl; [|done].
  destruct (abi_decode_strings ct) as [[[f o] c]|] eqn:Hdec; [|done].
  intros [= <-]. exists f, o, c. simpl.
  fold (clusterStats st c).
  destruct (FHE_isInitialized (clusterStats st c)) eqn:Hinit; simpl.
  - repeat split; try done.
  - repeat split; try done.
    unfold mapping_get. rewrite lookup_insert_eq. simpl.
    by rewrite insert_insert_eq.
Qed.

(** ** Invariants of the reachable states *)

(** To prove that a property holds in every reachable state, prove it of
    the initial state and prove that each of the four entry points that
    write to the storage preserves it. *)
Lemma reachable_invariant (P : State -> Prop) :
  P init ->
  (forall st st' ef eo ec ts, reachable st -> P st ->
     submitEncryptedDataPoint st ef eo ec ts = Ok st' -> P st') ->
  (forall st st' id, reachable st -> P st ->
     requestFederatedClustering st id = Ok st' -> P st') ->
  (forall st st' r ct pf, reachable st -> P st ->
     performClustering st r ct pf = Ok st' -> P st') ->
  (forall st st' c, reachable st -> P st ->
     requestClusterStatsDecryption st c = Ok st' -> P st') ->
  forall st, reachable st -> P st.
Proof.
  intros Hinit Hsubmit Hrequest Hperform Hstats st Hst.
  induction Hst as [|st call Hst IH]; [done|].
  unfold transact. destruct (dispatch st call) as [st'|] eqn:Hcall; [|done].
  destruct call; simpl in Hcall; eauto.
  apply decrypt_stats_inv in Hcall. by subst.
Qed.

Ltac invert_call Hcall :=
  first
    [ apply submit_inv in Hcall
    | apply request_clustering_inv in Hcall
    | apply request_stats_inv in Hcall ];
  destruct Hcall as
    (? & Hcount & Henc & Hdec & Hstats & Hlist & Hreq & Hlog & Hctr).

(** Case analysis on the result of the entry point under scrutiny. *)
Ltac case_result Hcall :=
  match goal with
  | |- context [match ?d with Ok _ => _ | Reverted _ => _ end] =>
      destruct d eqn:Hcall
  end.

Ltac invert_perform Hcall :=
  apply perform_inv in Hcall;
  destruct Hcall as
    (f & o & c & Hpending & Hfresh & Hsig & Hdecode & Hcount & Henc & Hdec
     & Hstats & Hlist & Hreq & Hlog & Hctr).

(** The registry lists exactly the clusters whose aggregate is initialised,
    each of them once. *)
Definition registry_consistent (st : State) : Prop :=
  NoDup (clusterList st)
  /\ forall c, c ∈ clusterList st <-> FHE_isInitialized (clusterStats st c) = true.

Lemma registry_consistent_reachable (st : State) :
  reachable st -> registry_consistent st.
Proof.
  revert st. apply reachable_invariant; unfold registry_consistent, clusterStats.
  - split; [constructor|]. intros c. unfold mapping_get. simpl.
    rewrite lookup_empty. simpl. split; [by intros ?%elem_of_nil|done].
  - intros st st' ef eo ec ts _ IH Hcall. invert_call Hcall.
    by rewrite Hlist, Hstats.
  - intros st st' id _ IH Hcall. invert_call Hcall.
    by rewrite Hlist, Hstats.
  - intros st st' r ct pf _ [IHnd IH] Hcall. invert_perform Hcall.
    rewrite Hlist, Hstats. unfold clusterStats in *.
    destruct (FHE_isInitialized (mapping_get Uninit (encryptedClusterStats st) c))
      eqn:Hinit.
    + split; [done|]. intros c'. rewrite IH. unfold mapping_get.
      destruct (decide (c = c')) as [<-|Hne].
      * by rewrite lookup_insert_eq.
      * by rewrite lookup_insert_ne.
    + split.
      * apply NoDup_app. split_and!; [done| |apply NoDup_singleton].
        intros c' Hin ->%list_elem_of_singleton.
        apply IH in Hin. congruence.
      * intros c'. rewrite elem_of_app, list_elem_of_singleton, IH.
        unfold mapping_get.
        destruct (decide (c = c')) as [<-|Hne].
        -- rewrite lookup_insert_eq. simpl. split; [done|by right].
        -- rewrite lookup_insert_ne by done. split; [|by left].
           by intros [?|?].
  - intros st st' c _ IH Hcall. invert_call Hcall.
    by rewrite Hlist, Hstats.
Qed.

(** A record that is not clustered holds no plaintext. *)
Definition plaintext_hidden (st : State) : Prop :=
  forall id, isClustered (decryptedDataPoint st id) = false ->
    decryptedDataPoint st id = zero_DecryptedDataPoint.

Lemma plaintext_hidden_reachable (st : State) :
  reachable st -> plaintext_hidden st.
Proof.
  revert st. apply reachable_invariant; unfold plaintext_hidden, decryptedDataPoint.
  - intros id _. unfold mapping_get. simpl. by rewrite lookup_empty.
  - intros st st' ef eo ec ts _ IH Hcall id. invert_call Hcall.
    rewrite Hdec. unfold mapping_get in *.
    destruct (decide (dataPointCount st + 1 = id)) as [<-|Hne].
    + by rewrite lookup_insert_eq.
    + rewrite lookup_insert_ne by done. apply IH.
  - intros st st' id' _ IH Hcall id. invert_call Hcall. rewrite Hdec. apply IH.
  - intros st st' r ct pf _ IH Hcall id. invert_perform Hcall.
    rewrite Hdec. unfold mapping_get in *.
    destruct (decide (pendingRequest st r = id)) as [<-|Hne].
    + by rewrite lookup_insert_eq.
    + rewrite lookup_insert_ne by done. apply IH.
  - intros st st' c' _ IH Hcall id. invert_call Hcall. rewrite Hdec. apply IH.
Qed.

(** The ids of the submissions logged so far are 1, 2, ..., [dataPointCount]. *)
Definition ids_sequential (st : State) : Prop :=
  0 <= dataPointCount st <= MAX_UINT256
  /\ submitted_ids (events st) = seqZ 1 (dataPointCount st).

Lemma submitted_ids_app (log1 log2 : list Event) :
  submitted_ids (log1 ++ log2) = submitted_ids log1 ++ submitted_ids log2.
Proof.
  induction log1 as [|[] log1 IH]; simpl; by rewrite ?IH.
Qed.

Lemma seqZ_one_snoc (n : Z) :
  0 <= n -> seqZ 1 (n + 1) = seqZ 1 n ++ [n + 1].
Proof.
  intros Hn. rewrite seqZ_app by lia. f_equal.
  rewrite seqZ_cons by lia. rewrite seqZ_nil by lia. f_equal. lia.
Qed.

Lemma ids_sequential_reachable (st : State) :
  reachable st -> ids_sequential st.
Proof.
  revert st. apply reachable_invariant; unfold ids_sequential.
  - split; [unfold MAX_UINT256; simpl; lia|done].
  - intros st st' ef eo ec ts _ [Hrange IH] Hcall. invert_call Hcall.
    rewrite Hcount, Hlog, submitted_ids_app, IH. simpl.
    split; [lia|]. by rewrite seqZ_one_snoc by lia.
  - intros st st' id _ [Hrange IH] Hcall. invert_call Hcall.
    by rewrite Hcount, Hlog, submitted_ids_app, IH, app_nil_r.
  - intros st st' r ct pf _ [Hrange IH] Hcall. invert_perform Hcall.
    by rewrite Hcount, Hlog, submitted_ids_app, IH, app_nil_r.
  - intros st st' c _ [Hrange IH] Hcall. invert_call Hcall.
    by rewrite Hcount, Hlog.
Qed.

(** Every clustered record belongs to a registered cluster. *)
Definition members_registered (st : State) : Prop :=
  forall id, isClustered (decryptedDataPoint st id) = true ->
    clusterId (decryptedDataPoint st id) ∈ clusterList st.

Lemma members_registered_reachable (st : State) :
  reachable st -> members_registered st.
Proof.
  revert st. apply reachable_invariant; unfold members_registered, decryptedDataPoint.
  - intros id. unfold mapping_get. simpl. by rewrite lookup_empty.
  - intros st st' ef eo ec ts _ IH Hcall id. invert_call Hcall.
    rewrite Hdec, Hlist. unfold mapping_get in *.
    destruct (decide (dataPointCount st + 1 = id)) as [<-|Hne].
    + by rewrite lookup_insert_eq.
    + rewrite lookup_insert_ne by done. apply IH.
  - intros st st' id' _ IH Hcall id. invert_call Hcall.
    rewrite Hdec, Hlist. apply IH.
  - intros st st' r ct pf Hst IH Hcall id. invert_perform Hcall.
    rewrite Hdec, Hlist. unfold mapping_get in *.
    destruct (decide (pendingRequest st r = id)) as [<-|Hne].
    + rewrite lookup_insert_eq. simpl. intros _.
      destruct (FHE_isInitialized (clusterStats st c)) eqn:Hinit.
      * by apply (registry_consistent_reachable st Hst).
      * apply elem_of_app. right. by apply list_elem_of_singleton.
    + rewrite lookup_insert_ne by done. intros Hid%IH.
      destruct (FHE_isInitialized (clusterStats st c)); [done|].
      apply elem_of_app. by left.
  - intros st st' c' _ IH Hcall id. invert_call Hcall.
    rewrite Hdec, Hlist. apply IH.
Qed.

(** A clustered record whose id was already assigned is never written again. *)
Lemma clustered_record_stable_step (st : State) (call : Call) (id : Z) :
  id <= dataPointCount st ->
  isClustered (decryptedDataPoint st id) = true ->
  dataPointCount st <= dataPointCount (transact st call)
  /\ decryptedDataPoint (transact st call) id = decryptedDataPoint st id.
Proof.
  intros Hid Hcl. unfold transact.
  destruct (dispatch st call) as [st'|] eqn:Hcall; [|split; [lia|done]].
  unfold decryptedDataPoint in *.
  destruct call; simpl in Hcall.
  - invert_call Hcall. rewrite Hcount, Hdec. split; [lia|].
    unfold mapping_get. by rewrite lookup_insert_ne by lia.
  - invert_call Hcall. rewrite Hcount, Hdec. split; [lia|done].
  - invert_perform Hcall. rewrite Hcount, Hdec. split; [lia|].
    unfold mapping_get in *. rewrite lookup_insert_ne; [done|].
    intros <-. unfold decryptedDataPoint, mapping_get in Hfresh. congruence.
  - invert_call Hcall. rewrite Hcount, Hdec. split; [lia|done].
  - apply decrypt_stats_inv in Hcall. subst. split; [lia|done].
Qed.

Lemma clustered_record_stable (st : State) (calls : list Call) (id : Z) :
  id <= dataPointCount st ->
  isClustered (decryptedDataPoint st id) = true ->
  decryptedDataPoint (run st calls) id = decryptedDataPoint st id.
Proof.
  revert st. induction calls as [|call calls IH]; intros st Hid Hcl; [done|].
  destruct (clustered_record_stable_step st call id Hid Hcl) as [Hle Heq].
  simpl. fold (run (transact st call) calls).
  rewrite IH; [done|lia|by rewrite Heq].
Qed.

(** ** The claims *)

(** C6. In every reachable state each cluster name occurs at most once in
    [clusterList], and the cluster of every clustered record is listed.  A
    callback of [performClustering] that goes through appends the decoded
    cluster to the list exactly when the list does not hold it yet, and no
    other entry point changes the list: a cluster is appended once, by the
    first data point clustered into it. *)
Theorem clusterList_no_duplicates (st : State) :
  reachable st ->
  NoDup (clusterList st)
  /\ (forall id, isClustered (decryptedDataPoint st id) = true ->
        clusterId (decryptedDataPoint st id) ∈ clusterList st)
  /\ forall call st', dispatch st call = Ok st' ->
       NoDup (clusterList st')
       /\ match call with
          | PerformClustering r ct pf =>
              exists f o c,
                abi_decode_strings ct = Some (f, o, c)
                /\ c ∈ clusterList st'
                /\ clusterList st' =
                     if decide (c ∈ clusterList st) then clusterList st
                     else clusterList st ++ [c]
          | _ => clusterList st' = clusterList st
          end.
Proof.
  intros Hst. split; [apply (registry_consistent_reachable st Hst)|].
  split; [apply (members_registered_reachable st Hst)|].
  intros call st' Hcall. split.
  - rewrite <- (transact_ok _ _ _ Hcall).
    apply registry_consistent_reachable. by constructor.
  - destruct call; simpl in Hcall.
    + by invert_call Hcall.
    + by invert_call Hcall.
    + invert_perform Hcall. exists f, o, c. split; [done|].
      destruct (registry_consistent_reachable st Hst) as [_ Hreg].
      rewrite Hlist. case_decide as Hin.
      * apply Hreg in Hin as Hinit. by rewrite Hinit.
      * destruct (FHE_isInitialized (clusterStats st c)) eqn:Hinit.
        -- by apply Hreg in Hinit.
        -- split; [|done]. apply elem_of_app. right.
           by apply list_elem_of_singleton.
    + by invert_call Hcall.
    + apply decrypt_stats_inv in Hcall. by subst.
Qed.

(** C7.  In every reachable state a record that is not clustered has empty
    [features], [dataOwner] and [clusterId]; and a clustered data point
    record, that is one whose id a submission has assigned
    ([id <= dataPointCount]), is never written again, so that no sequence
    of calls turns its [isClustered] back to false. *)
Theorem isClustered_stable (st : State) (id : Z) (calls : list Call) :
  reachable st ->
  (isClustered (decryptedDataPoint st id) = false ->
     features (decryptedDataPoint st id) = ""
     /\ dataOwner (decryptedDataPoint st id) = ""
     /\ clusterId (decryptedDataPoint st id) = "")
  /\ (id <= dataPointCount st ->
      isClustered (decryptedDataPoint st id) = true ->
      decryptedDataPoint (run st calls) id = decryptedDataPoint st id
      /\ isClustered (decryptedDataPoint (run st calls) id) = true).
Proof.
  intros Hst. split.
  - intros Hcl. by rewrite (plaintext_hidden_reachable st Hst id Hcl).
  - intros Hid Hcl. by rewrite clustered_record_stable.
Qed.

(** A submission goes through unless [dataPointCount] is the largest
    [uint256]. *)
Lemma submit_succeeds (st : State) ef eo ec ts :
  dataPointCount st < MAX_UINT256 ->
  exists st', submitEncryptedDataPoint st ef eo ec ts = Ok st'.
Proof.
  intros Hmax. unfold submitEncryptedDataPoint, checked_incr.
  destruct (Z.ltb_spec (dataPointCount st) MAX_UINT256); [|lia].
  simpl. eauto.
Qed.

Lemma submit_overflows (st : State) ef eo ec ts :
  MAX_UINT256 <= dataPointCount st ->
  submitEncryptedDataPoint st ef eo ec ts = Reverted (Panic PANIC_OVERFLOW).
Proof.
  intros Hmax. unfold submitEncryptedDataPoint, checked_incr.
  by destruct (Z.ltb_spec (dataPointCount st) MAX_UINT256); [lia|].
Qed.

Lemma transact_submit_ids (st : State) ef eo ec ts :
  dataPointCount st < MAX_UINT256 ->
  dataPointCount (transact st (SubmitEncryptedDataPoint ef eo ec ts))
    = dataPointCount st + 1
  /\ submitted_ids (events (transact st (SubmitEncryptedDataPoint ef eo ec ts)))
     = submitted_ids (events st) ++ [dataPointCount st + 1].
Proof.
  intros Hmax. destruct (submit_succeeds st ef eo ec ts Hmax) as [st' Hcall].
  unfold transact. simpl. rewrite Hcall. invert_call Hcall.
  by rewrite Hcount, Hlog, submitted_ids_app.
Qed.

(** A sequence of submissions takes the next ids, one after the other. *)
Lemma run_submissions (submissions : list (euint32 * euint32 * euint32 * Z)) :
  forall st,
    dataPointCount st + Z.of_nat (length submissions) <= MAX_UINT256 ->
    dataPointCount (run st (map submission_call submissions))
      = dataPointCount st + Z.of_nat (length submissions)
    /\ submitted_ids (events (run st (map submission_call submissions)))
       = submitted_ids (events st)
         ++ seqZ (dataPointCount st + 1) (Z.of_nat (length submissions)).
Proof.
  induction submissions as [|[[[ef eo] ec] ts] submissions IH]; intros st Hmax.
  - simpl. split; [lia|]. by rewrite seqZ_nil, app_nil_r by lia.
  - simpl length in *. simpl map. simpl run.
    fold (run (transact st (SubmitEncryptedDataPoint ef eo ec ts))
            (map submission_call submissions)).
    destruct (transact_submit_ids st ef eo ec ts) as [Hcount Hids]; [lia|].
    destruct (IH (transact st (SubmitEncryptedDataPoint ef eo ec ts)))
      as [Hcount' Hids']; [lia|].
    rewrite Hcount', Hids', Hcount, Hids. split; [lia|].
    rewrite <- app_assoc. f_equal.
    rewrite (seqZ_cons (dataPointCount st + 1)) by lia. simpl. do 2 f_equal; lia.
Qed.

(** C8. In every reachable state the ids announced by the submissions so
    far are 1, 2, ..., [dataPointCount], in this order.  A submission goes
    through unless [dataPointCount] is the largest [uint256], where it
    reverts with the overflow panic; when it goes through it takes the id
    [dataPointCount + 1], which no earlier submission took, stores its
    record under this id, and leaves the records of all other ids as they
    were.  So every sequence of submissions, as long as the ids fit in a
    [uint256], goes through and leaves the announced ids 1, 2, ..., up to
    the new [dataPointCount]. *)
Theorem submission_ids_sequential (st : State) :
  reachable st ->
  submitted_ids (events st) = seqZ 1 (dataPointCount st)
  /\ NoDup (submitted_ids (events st))
  /\ (forall ef eo ec ts st',
        submitEncryptedDataPoint st ef eo ec ts = Ok st' ->
        let newId := dataPointCount st + 1 in
        dataPointCount st' = newId
        /\ submitted_ids (events st') = submitted_ids (events st) ++ [newId]
        /\ (newId ∉ submitted_ids (events st))
        /\ Forall (fun id => id < newId) (submitted_ids (events st))
        /\ edp_id (encryptedDataPoint st' newId) = newId
        /\ forall id, id <> newId ->
             encryptedDataPoint st' id = encryptedDataPoint st id
             /\ decryptedDataPoint st' id = decryptedDataPoint st id)
  /\ (forall ef eo ec ts,
        dataPointCount st < MAX_UINT256 ->
        exists st', submitEncryptedDataPoint st ef eo ec ts = Ok st')
  /\ (forall ef eo ec ts,
        dataPointCount st = MAX_UINT256 ->
        submitEncryptedDataPoint st ef eo ec ts
        = Reverted (Panic PANIC_OVERFLOW))
  /\ forall submissions : list (euint32 * euint32 * euint32 * Z),
       dataPointCount st + Z.of_nat (length submissions) <= MAX_UINT256 ->
       dataPointCount (run st (map submission_call submissions))
         = dataPointCount st + Z.of_nat (length submissions)
       /\ submitted_ids (events (run st (map submission_call submissions)))
          = seqZ 1 (dataPointCount st + Z.of_nat (length submissions)).
Proof.
  intros Hst. destruct (ids_sequential_reachable st Hst) as [Hrange Hids].
  split; [done|]. split; [rewrite Hids; apply NoDup_seqZ|].
  split.
  { intros ef eo ec ts st' Hcall newId. invert_call Hcall.
    rewrite Hlog, submitted_ids_app, Hids. simpl.
    split; [done|]. split; [done|].
    split; [rewrite elem_of_seqZ; subst newId; lia|].
    split; [apply Forall_seqZ; subst newId; lia|].
    unfold encryptedDataPoint, decryptedDataPoint, mapping_get.
    rewrite Henc, Hdec. split.
    - by rewrite lookup_insert_eq.
    - intros id Hne. by rewrite !lookup_insert_ne. }
  split; [intros; by apply submit_succeeds|].
  split; [intros ef eo ec ts Hlast; apply submit_overflows; lia|].
  intros submissions Hfit.
  destruct (run_submissions submissions st Hfit) as [Hcount Hnew].
  split; [done|]. rewrite Hnew, Hids.
  rewrite (seqZ_app 1 (dataPointCount st)) by lia. do 2 f_equal. lia.
Qed.

(** ** Registered request ids *)

Lemma counterRequest_step (st : State) (call : Call) :
  (counterRequest st <= counterRequest (transact st call))%nat.
Proof.
  unfold transact. destruct (dispatch st call) as [st'|] eqn:Hcall; [|done].
  destruct call; simpl in Hcall.
  - invert_call Hcall. lia.
  - invert_call Hcall. lia.
  - invert_perform Hcall. lia.
  - invert_call Hcall. lia.
  - apply decrypt_stats_inv in Hcall. by subst.
Qed.

Lemma counterRequest_run (st : State) (calls : list Call) :
  (counterRequest st <= counterRequest (run st calls))%nat.
Proof.
  revert st. induction calls as [|call calls IH]; intros st; [done|].
  simpl. fold (run (transact st call) calls).
  pose proof (counterRequest_step st call). pose proof (IH (transact st call)).
  lia.
Qed.

(** The keys of [requestToDataPointId] are the ids registered so far. *)
Lemma registered_by_step (st : State) (call : Call) (r : Z) :
  is_Some (requestToDataPointId (transact st call) !! r) <->
  is_Some (requestToDataPointId st !! r) \/ r ∈ registered_by st call.
Proof.
  unfold transact, registered_by.
  destruct call; simpl; case_result Hcall;
    rewrite ?elem_of_nil, ?list_elem_of_singleton; try tauto.
  - invert_call Hcall. rewrite Hreq. tauto.
  - invert_call Hcall. rewrite Hreq, lookup_insert_is_Some.
    destruct (decide (clustering_request_id st dataPointId = r)); intuition congruence.
  - invert_perform Hcall. rewrite Hreq. tauto.
  - invert_call Hcall. rewrite Hreq, lookup_insert_is_Some.
    destruct (decide (stats_request_id st c = r)); intuition congruence.
  - apply decrypt_stats_inv in Hcall. subst. tauto.
Qed.

Lemma registered_ids_dom (st : State) (calls : list Call) (r : Z) :
  is_Some (requestToDataPointId (run st calls) !! r) <->
  is_Some (requestToDataPointId st !! r) \/ r ∈ registered_ids st calls.
Proof.
  revert st. induction calls as [|call calls IH]; intros st; simpl.
  - rewrite elem_of_nil. tauto.
  - fold (run (transact st call) calls).
    rewrite IH, registered_by_step, elem_of_app. tauto.
Qed.

(** Every registered id was assigned by the oracle to one of the requests
    counted by [counterRequest]. *)
Lemma registered_by_issued (st : State) (call : Call) (r : Z) :
  r ∈ registered_by st call ->
  counterRequest (transact st call) = S (counterRequest st)
  /\ exists h s, r = FHE_requestDecryption (counterRequest st) h s.
Proof.
  unfold transact, registered_by.
  destruct call; simpl; case_result Hcall; try by intros ?%elem_of_nil.
  - intros ->%list_elem_of_singleton. invert_call Hcall.
    split; [done|]. unfold clustering_request_id. eauto.
  - intros ->%list_elem_of_singleton. invert_call Hcall.
    split; [done|]. unfold stats_request_id. eauto.
Qed.

Lemma registered_ids_issued (st : State) (calls : list Call) (r : Z) :
  r ∈ registered_ids st calls ->
  exists n h s,
    (counterRequest st <= n < counterRequest (run st calls))%nat
    /\ r = FHE_requestDecryption n h s.
Proof.
  revert st. induction calls as [|call calls IH]; intros st; simpl.
  - by intros ?%elem_of_nil.
  - fold (run (transact st call) calls). intros [Hin|Hin]%elem_of_app.
    + apply registered_by_issued in Hin as (Hctr & h & s & ->).
      exists (counterRequest st), h, s. split; [|done].
      pose proof (counterRequest_run (transact st call) calls). lia.
    + apply IH in Hin as (n & h & s & Hn & ->).
      exists n, h, s. split; [|done].
      pose proof (counterRequest_step st call). lia.
Qed.

(** C3. Whatever calls were made since deployment, a callback of
    [performClustering] with a request id that none of them registered
    reverts with "Invalid request", and the transaction leaves the whole
    state as it was. *)
Theorem performClustering_unknown_request
    (calls : list Call) (requestId : Z) (cleartexts proof : bytes) :
  requestId ∉ registered_ids init calls ->
  performClustering (run init calls) requestId cleartexts proof
    = Reverted InvalidRequest
  /\ transact (run init calls) (PerformClustering requestId cleartexts proof)
     = run init calls.
Proof.
  intros Hnew.
  assert (requestToDataPointId (run init calls) !! requestId = None) as Hnone.
  { apply eq_None_not_Some. rewrite registered_ids_dom. simpl.
    rewrite lookup_empty. intros [[? [=]]|?]. done. }
  assert (performClustering (run init calls) requestId cleartexts proof
          = Reverted InvalidRequest) as Hrev.
  { unfold performClustering, pendingRequest, mapping_get. by rewrite Hnone. }
  split; [done|]. by apply (transact_reverted _ _ InvalidRequest).
Qed.

(** C4. A request on a record that is already clustered reverts with
    "Already clustered".  A request on a record that is not clustered goes
    through and maps the id it receives from the oracle to the data point
    in [requestToDataPointId], changing no other entry; and when the oracle
    never assigns one id twice, that id is fresh: none of the calls made
    since deployment registered it and the map did not hold it. *)
Theorem requestFederatedClustering_spec (calls : list Call) (dataPointId : Z) :
  let st := run init calls in
  (isClustered (decryptedDataPoint st dataPointId) = true ->
     requestFederatedClustering st dataPointId = Reverted AlreadyClustered)
  /\ (isClustered (decryptedDataPoint st dataPointId) = false ->
      exists st',
        requestFederatedClustering st dataPointId = Ok st'
        /\ requestToDataPointId st' =
             <[clustering_request_id st dataPointId := dataPointId]>
               (requestToDataPointId st)
        /\ pendingRequest st' (clustering_request_id st dataPointId) = dataPointId
        /\ (oracle_unique ->
            (clustering_request_id st dataPointId ∉ registered_ids init calls)
            /\ requestToDataPointId st !! clustering_request_id st dataPointId
                 = None)).
Proof.
  intros st. split.
  - intros Hcl. unfold requestFederatedClustering. by rewrite Hcl.
  - intros Hcl.
    destruct (requestFederatedClustering st dataPointId) as [st'|r] eqn:Hcall;
      [|unfold requestFederatedClustering in Hcall; by rewrite Hcl in Hcall].
    exists st'. split; [done|]. invert_call Hcall.
    split; [done|]. split.
    { unfold pendingRequest, mapping_get. by rewrite Hreq, lookup_insert_eq. }
    intros Huniq.
    assert (clustering_request_id st dataPointId ∉ registered_ids init calls)
      as Hnew.
    { intros (n & h & s & Hn & Heq)%registered_ids_issued.
      unfold clustering_request_id in Heq. apply Huniq in Heq.
      fold st in Hn. lia. }
    split; [done|]. apply eq_None_not_Some.
    unfold st. rewrite registered_ids_dom. simpl. rewrite lookup_empty.
    intros [[? [=]]|?]. done.
Qed.

(** ** The decryption callbacks *)

(** A callback for a pending request on a record that is not clustered,
    with a valid proof and a well-formed cleartext, goes through. *)
Lemma performClustering_succeeds (st : State) (requestId : Z)
    (cleartexts proof : bytes) (f o c : string) :
  pendingRequest st requestId <> 0 ->
  isClustered (decryptedDataPoint st (pendingRequest st requestId)) = false ->
  FHE_checkSignatures requestId cleartexts proof = true ->
  abi_decode_strings cleartexts = Some (f, o, c) ->
  exists st', performClustering st requestId cleartexts proof = Ok st'.
Proof.
  intros Hpending Hfresh Hsig Hdecode. unfold performClustering.
  destruct (Z.eqb_spec (pendingRequest st requestId) 0); [done|].
  rewrite Hfresh, Hsig, Hdecode. simpl. eauto.
Qed.

Lemma FHE_add_one_decrypt (e : euint32) :
  FHE_decrypt
    (FHE_add (if FHE_isInitialized e then e else FHE_asEuint32 0)
       (FHE_asEuint32 1))
  = (FHE_decrypt e + 1) mod UINT32_MODULUS.
Proof. by destruct e. Qed.

(** What one callback of [performClustering] does. *)
Lemma performClustering_effect (st : State) (requestId : Z)
    (cleartexts proof : bytes) (id : Z) (f o c : string) :
  requestToDataPointId st !! requestId = Some id ->
  id <> 0 ->
  isClustered (decryptedDataPoint st id) = false ->
  FHE_checkSignatures requestId cleartexts proof = true ->
  abi_decode_strings cleartexts = Some (f, o, c) ->
  exists st',
    performClustering st requestId cleartexts proof = Ok st'
    /\ decryptedDataPoint st' id =
         {| features := f; dataOwner := o; clusterId := c; isClustered := true |}
    /\ (forall id', id' <> id ->
          decryptedDataPoint st' id' = decryptedDataPoint st id')
    /\ FHE_decrypt (clusterStats st' c) =
         (FHE_decrypt (clusterStats st c) + 1) mod UINT32_MODULUS
    /\ (0 <= FHE_decrypt (clusterStats st c) < UINT32_MODULUS - 1 ->
        FHE_decrypt (clusterStats st' c) = FHE_decrypt (clusterStats st c) + 1)
    /\ (forall c', c' <> c -> clusterStats st' c' = clusterStats st c')
    /\ (forall cleartexts' proof',
          performClustering st' requestId cleartexts' proof'
          = Reverted AlreadyClustered).
Proof.
  intros Hreq0 Hid Hfresh Hsig Hdecode.
  assert (pendingRequest st requestId = id) as Hpend.
  { unfold pendingRequest, mapping_get. by rewrite Hreq0. }
  destruct (performClustering_succeeds st requestId cleartexts proof f o c)
    as [st' Hcall]; rewrite ?Hpend; try done.
  exists st'. split; [done|].
  apply perform_inv in Hcall as
    (f' & o' & c' & _ & _ & _ & Hdecode' & _ & _ & Hdec & Hstats & _ & Hreq & _).
  rewrite Hpend in *. rewrite Hdecode in Hdecode'. injection Hdecode' as <- <- <-.
  assert (decryptedDataPoint st' id =
          {| features := f; dataOwner := o; clusterId := c; isClustered := true |})
    as Hrec.
  { unfold decryptedDataPoint, mapping_get. by rewrite Hdec, lookup_insert_eq. }
  assert (FHE_decrypt (clusterStats st' c) =
          (FHE_decrypt (clusterStats st c) + 1) mod UINT32_MODULUS) as Hsum.
  { unfold clusterStats at 1. unfold mapping_get.
    rewrite Hstats, lookup_insert_eq. simpl default.
    apply FHE_add_one_decrypt. }
  split; [done|]. split.
  { intros id' Hne. unfold decryptedDataPoint, mapping_get.
    by rewrite Hdec, lookup_insert_ne. }
  split; [done|]. split.
  { intros Hrange. rewrite Hsum. apply Z.mod_small. lia. }
  split.
  { intros c' Hne. unfold clusterStats, mapping_get.
    by rewrite Hstats, lookup_insert_ne. }
  intros cleartexts' proof'. unfold performClustering.
  assert (pendingRequest st' requestId = id) as ->.
  { unfold pendingRequest, mapping_get. by rewrite Hreq, Hreq0. }
  destruct (Z.eqb_spec id 0); [done|]. by rewrite Hrec.
Qed.

(** C5, as amended.  In [performClustering] the guard against a second
    callback comes before the verification of the proof: once the request
    is found, a callback on a record that is already clustered reverts with
    "Already clustered" whether the proof is valid or not, and a callback
    with an invalid proof reverts with the oracle's invalid-proof error
    only when the record is not clustered yet. *)
Theorem performClustering_guard_before_proof (st : State) (requestId : Z)
    (cleartexts proof : bytes) :
  pendingRequest st requestId <> 0 ->
  (isClustered (decryptedDataPoint st (pendingRequest st requestId)) = true ->
     performClustering st requestId cleartexts proof = Reverted AlreadyClustered)
  /\ (isClustered (decryptedDataPoint st (pendingRequest st requestId)) = false ->
      FHE_checkSignatures requestId cleartexts proof = false ->
      performClustering st requestId cleartexts proof = Reverted InvalidSignatures).
Proof.
  intros Hpending. unfold performClustering.
  destruct (Z.eqb_spec (pendingRequest st requestId) 0); [done|].
  split.
  - by intros ->.
  - by intros -> ->.
Qed.

Lemma getClusterFromHash_loop_found (clusters : list string) (c : string) :
  c ∈ clusters ->
  exists c', getClusterFromHash_loop clusters (bytes32ToUint (keccak256 c)) = Ok c'.
Proof.
  induction clusters as [|c0 clusters IH]; [by intros ?%elem_of_nil|].
  intros [->|Hin]%elem_of_cons; simpl.
  - rewrite Z.eqb_refl. eauto.
  - destruct (_ =? _); eauto.
Qed.

(** C10. In a reachable state, after [requestClusterStatsDecryption] went
    through for a cluster, the callback [decryptClusterStats] for the
    request it registered, with a valid proof and a cleartext that decodes
    to a [uint32], goes through and returns the state it was called in:
    the decoded count is stored nowhere.  The same holds for every call of
    [decryptClusterStats] that goes through. *)
Theorem decryptClusterStats_frame (st st1 : State) (c : string)
    (cleartexts proof : bytes) (stats : Z) :
  reachable st ->
  requestClusterStatsDecryption st c = Ok st1 ->
  FHE_checkSignatures (stats_request_id st c) cleartexts proof = true ->
  abi_decode_uint32 cleartexts = Some stats ->
  decryptClusterStats st1 (stats_request_id st c) cleartexts proof = Ok st1
  /\ transact st1 (DecryptClusterStats (stats_request_id st c) cleartexts proof)
     = st1
  /\ forall st2 r ct pf st3, decryptClusterStats st2 r ct pf = Ok st3 -> st3 = st2.
Proof.
  intros Hst Hcall Hsig Hdecode.
  assert (decryptClusterStats st1 (stats_request_id st c) cleartexts proof
          = Ok st1) as Hok.
  { invert_call Hcall.
    destruct (registry_consistent_reachable st Hst) as [_ Hreg].
    destruct (getClusterFromHash_loop_found (clusterList st) c) as [c' Hc'];
      [by apply Hreg|].
    unfold decryptClusterStats, getClusterFromHash, pendingRequest, mapping_get.
    rewrite Hreq, lookup_insert_eq, Hlist. simpl default.
    rewrite Hc'. simpl. by rewrite Hsig, Hdecode. }
  split; [done|]. split.
  - by apply transact_ok.
  - intros st2 r ct pf st3. apply decrypt_stats_inv.
Qed.

(** ** The scenario of three data points *)

Lemma transact_submit (st : State) ef eo ec ts :
  encryptedClusterStats (transact st (SubmitEncryptedDataPoint ef eo ec ts))
    = encryptedClusterStats st
  /\ clusterList (transact st (SubmitEncryptedDataPoint ef eo ec ts))
       = clusterList st
  /\ requestToDataPointId (transact st (SubmitEncryptedDataPoint ef eo ec ts))
       = requestToDataPointId st
  /\ counterRequest (transact st (SubmitEncryptedDataPoint ef eo ec ts))
       = counterRequest st
  /\ ((forall id, isClustered (decryptedDataPoint st id) = false) ->
      forall id,
        isClustered
          (decryptedDataPoint
             (transact st (SubmitEncryptedDataPoint ef eo ec ts)) id) = false).
Proof.
  unfold transact. simpl. case_result Hcall; [|done].
  invert_call Hcall. repeat split; try done.
  intros Hnone id. unfold decryptedDataPoint, mapping_get in *. rewrite Hdec.
  destruct (decide (dataPointCount st + 1 = id)) as [<-|Hne].
  - by rewrite lookup_insert_eq.
  - rewrite lookup_insert_ne by done. apply Hnone.
Qed.

Lemma transact_request (st : State) (id : Z) :
  isClustered (decryptedDataPoint st id) = false ->
  decryptedDataPoints (transact st (RequestFederatedClustering id))
    = decryptedDataPoints st
  /\ encryptedClusterStats (transact st (RequestFederatedClustering id))
       = encryptedClusterStats st
  /\ clusterList (transact st (RequestFederatedClustering id)) = clusterList st
  /\ requestToDataPointId (transact st (RequestFederatedClustering id)) =
       <[clustering_request_id st id := id]> (requestToDataPointId st)
  /\ counterRequest (transact st (RequestFederatedClustering id))
       = S (counterRequest st).
Proof.
  intros Hfresh. unfold transact. simpl. case_result Hcall.
  - by invert_call Hcall.
  - unfold requestFederatedClustering in Hcall. by rewrite Hfresh in Hcall.
Qed.

Lemma transact_perform (st : State) (requestId : Z) (cleartexts proof : bytes)
    (id : Z) (f o c : string) :
  requestToDataPointId st !! requestId = Some id ->
  id <> 0 ->
  isClustered (decryptedDataPoint st id) = false ->
  FHE_checkSignatures requestId cleartexts proof = true ->
  abi_decode_strings cleartexts = Some (f, o, c) ->
  decryptedDataPoints (transact st (PerformClustering requestId cleartexts proof)) =
    <[id := {| features := f; dataOwner := o; clusterId := c;
               isClustered := true |}]> (decryptedDataPoints st)
  /\ encryptedClusterStats
       (transact st (PerformClustering requestId cleartexts proof)) =
       <[c := Enc ((FHE_decrypt (clusterStats st c) + 1) mod UINT32_MODULUS)]>
         (encryptedClusterStats st)
  /\ clusterList (transact st (PerformClustering requestId cleartexts proof)) =
       (if FHE_isInitialized (clusterStats st c)
        then clusterList st else clusterList st ++ [c])
  /\ requestToDataPointId
       (transact st (PerformClustering requestId cleartexts proof))
       = requestToDataPointId st.
Proof.
  intros Hreq0 Hid Hfresh Hsig Hdecode.
  assert (pendingRequest st requestId = id) as Hpend.
  { unfold pendingRequest, mapping_get. by rewrite Hreq0. }
  destruct (performClustering_succeeds st requestId cleartexts proof f o c)
    as [st' Hcall]; rewrite ?Hpend; try done.
  unfold transact. simpl. rewrite Hcall.
  apply perform_inv in Hcall as
    (f' & o' & c' & _ & _ & _ & Hdecode' & _ & _ & Hdec & Hstats & Hlist & Hreq & _).
  rewrite Hpend in *. rewrite Hdecode in Hdecode'. injection Hdecode' as <- <- <-.
  repeat split; try done.
  rewrite Hstats. f_equal. by destruct (clusterStats st c).
Qed.

(** A callback on a record that is clustered reverts. *)
Lemma performClustering_clustered_reverts (st : State) (requestId : Z)
    (cleartexts proof : bytes) :
  pendingRequest st requestId <> 0 ->
  isClustered (decryptedDataPoint st (pendingRequest st requestId)) = true ->
  performClustering st requestId cleartexts proof = Reverted AlreadyClustered.
Proof.
  intros Hpending Hclustered. unfold performClustering.
  destruct (Z.eqb_spec (pendingRequest st requestId) 0); [done|].
  by rewrite Hclustered.
Qed.

(** C1, as amended.  A callback of [performClustering] for a pending
    request on a record that is not clustered, with a valid proof, goes
    through: it writes the three decoded strings into the record and sets
    [isClustered], leaves every other record and every other aggregate as
    they were, and adds one to the aggregate of the decoded cluster in
    32-bit arithmetic: exactly one below [2^32 - 1], and from [2^32 - 1]
    back to 0.  It sets [isClustered] once: a second callback for the same
    request reverts with "Already clustered", and when the id of the
    record has been assigned ([id <= dataPointCount]) the record stays as
    written and every later callback on it, for whatever request and
    after whatever calls, reverts with "Already clustered".  In
    particular, when the oracle never assigns one id twice, submitting
    three data points, requesting the clustering of each and completing the
    three decryptions with clusters "A", "A" and "B" leaves the registry
    ["A"; "B"], with aggregates that decrypt to 2 and to 1. *)
Theorem performClustering_correct :
  (forall (st : State) (requestId : Z) (cleartexts proof : bytes) (id : Z)
          (f o c : string),
     requestToDataPointId st !! requestId = Some id ->
     id <> 0 ->
     isClustered (decryptedDataPoint st id) = false ->
     FHE_checkSignatures requestId cleartexts proof = true ->
     abi_decode_strings cleartexts = Some (f, o, c) ->
     exists st',
       performClustering st requestId cleartexts proof = Ok st'
       /\ decryptedDataPoint st' id =
            {| features := f; dataOwner := o; clusterId := c;
               isClustered := true |}
       /\ (forall id', id' <> id ->
             decryptedDataPoint st' id' = decryptedDataPoint st id')
       /\ FHE_decrypt (clusterStats st' c) =
            (FHE_decrypt (clusterStats st c) + 1) mod UINT32_MODULUS
       /\ (0 <= FHE_decrypt (clusterStats st c) < UINT32_MODULUS - 1 ->
           FHE_decrypt (clusterStats st' c) = FHE_decrypt (clusterStats st c) + 1)
       /\ (FHE_decrypt (clusterStats st c) = UINT32_MODULUS - 1 ->
           FHE_decrypt (clusterStats st' c) = 0)
       /\ (forall c', c' <> c -> clusterStats st' c' = clusterStats st c')
       /\ (forall cleartexts' proof',
             performClustering st' requestId cleartexts' proof'
             = Reverted AlreadyClustered)
       /\ (id <= dataPointCount st ->
           forall (calls : list Call) (requestId' : Z)
                  (cleartexts' proof' : bytes),
             decryptedDataPoint (run st' calls) id =
               {| features := f; dataOwner := o; clusterId := c;
                  isClustered := true |}
             /\ (pendingRequest (run st' calls) requestId' = id ->
                 performClustering (run st' calls) requestId' cleartexts' proof'
                 = Reverted AlreadyClustered)))
  /\ (forall ef1 eo1 ec1 ts1 ef2 eo2 ec2 ts2 ef3 eo3 ec3 ts3
             (ct1 pf1 ct2 pf2 ct3 pf3 : bytes) (f1 o1 f2 o2 f3 o3 : string),
       oracle_unique ->
       let st3 :=
         run init [SubmitEncryptedDataPoint ef1 eo1 ec1 ts1;
                   SubmitEncryptedDataPoint ef2 eo2 ec2 ts2;
                   SubmitEncryptedDataPoint ef3 eo3 ec3 ts3] in
       let r1 := clustering_request_id st3 1 in
       let st4 := transact st3 (RequestFederatedClustering 1) in
       let r2 := clustering_request_id st4 2 in
       let st5 := transact st4 (RequestFederatedClustering 2) in
       let r3 := clustering_request_id st5 3 in
       let st6 := transact st5 (RequestFederatedClustering 3) in
       FHE_checkSignatures r1 ct1 pf1 = true ->
       FHE_checkSignatures r2 ct2 pf2 = true ->
       FHE_checkSignatures r3 ct3 pf3 = true ->
       abi_decode_strings ct1 = Some (f1, o1, "A") ->
       abi_decode_strings ct2 = Some (f2, o2, "A") ->
       abi_decode_strings ct3 = Some (f3, o3, "B") ->
       let st9 :=
         run st6 [PerformClustering r1 ct1 pf1;
                  PerformClustering r2 ct2 pf2;
                  PerformClustering r3 ct3 pf3] in
       clusterList st9 = ["A"; "B"]
       /\ FHE_decrypt (clusterStats st9 "A") = 2
       /\ FHE_decrypt (clusterStats st9 "B") = 1
       /\ isClustered (decryptedDataPoint st9 1) = true
       /\ isClustered (decryptedDataPoint st9 2) = true
       /\ isClustered (decryptedDataPoint st9 3) = true).
Proof.
  split.
  { intros st requestId cleartexts proof id f o c
      Hpending Hid Hfresh Hsig Hdecode.
    destruct (performClustering_effect st requestId cleartexts proof id f o c
                Hpending Hid Hfresh Hsig Hdecode)
      as (st' & Hcall & Hrecord & Hothers & Hsum & Hexact & Hstats & Hagain).
    exists st'. split; [done|]. split; [done|]. split; [done|].
    split; [done|]. split; [done|]. split.
    { intros Hlast. rewrite Hsum, Hlast.
      replace (UINT32_MODULUS - 1 + 1) with (1 * UINT32_MODULUS) by lia.
      apply Z.mod_mul. unfold UINT32_MODULUS. lia. }
    split; [done|]. split; [done|].
    intros Hassigned calls requestId' cleartexts' proof'.
    assert (dataPointCount st' = dataPointCount st) as Hcount.
    { apply perform_inv in Hcall. by destruct Hcall as
        (? & ? & ? & _ & _ & _ & _ & Hcount & _). }
    assert (decryptedDataPoint (run st' calls) id = decryptedDataPoint st' id)
      as Hstable.
    { apply clustered_record_stable; [lia|by rewrite Hrecord]. }
    split; [by rewrite Hstable|].
    intros Htarget. apply performClustering_clustered_reverts.
    - by rewrite Htarget.
    - by rewrite Htarget, Hstable, Hrecord. }
  intros ef1 eo1 ec1 ts1 ef2 eo2 ec2 ts2 ef3 eo3 ec3 ts3
    ct1 pf1 ct2 pf2 ct3 pf3 f1 o1 f2 o2 f3 o3 Huniq st3 r1 st4 r2 st5 r3 st6
    Hsig1 Hsig2 Hsig3 Hdec1 Hdec2 Hdec3 st9.
  (* the three submissions *)
  assert (encryptedClusterStats st3 = ∅ /\ clusterList st3 = []
          /\ requestToDataPointId st3 = ∅ /\ counterRequest st3 = 0%nat
          /\ forall id, isClustered (decryptedDataPoint st3 id) = false)
    as (Hstats3 & Hlist3 & Hreq3 & Hctr3 & Hnone3).
  { subst st3. unfold run. simpl foldl.
    set (s1 := transact init (SubmitEncryptedDataPoint ef1 eo1 ec1 ts1)).
    set (s2 := transact s1 (SubmitEncryptedDataPoint ef2 eo2 ec2 ts2)).
    destruct (transact_submit init ef1 eo1 ec1 ts1) as (A1 & B1 & C1 & D1 & E1).
    destruct (transact_submit s1 ef2 eo2 ec2 ts2) as (A2 & B2 & C2 & D2 & E2).
    destruct (transact_submit s2 ef3 eo3 ec3 ts3) as (A3 & B3 & C3 & D3 & E3).
    fold s1 in A1, B1, C1, D1, E1. fold s2 in A2, B2, C2, D2, E2.
    rewrite A3, A2, A1, B3, B2, B1, C3, C2, C1, D3, D2, D1.
    repeat split; try done. apply E3, E2, E1. intros id.
    unfold decryptedDataPoint, mapping_get. simpl. by rewrite lookup_empty. }
  (* the three requests *)
  destruct (transact_request st3 1 (Hnone3 1)) as (Hd4 & Hs4 & Hl4 & Hr4 & Hc4).
  fold st4 r1 in Hd4, Hs4, Hl4, Hr4, Hc4.
  assert (forall id, isClustered (decryptedDataPoint st4 id) = false) as Hnone4.
  { intros id. unfold decryptedDataPoint. rewrite Hd4. apply Hnone3. }
  destruct (transact_request st4 2 (Hnone4 2)) as (Hd5 & Hs5 & Hl5 & Hr5 & Hc5).
  fold st5 r2 in Hd5, Hs5, Hl5, Hr5, Hc5.
  assert (forall id, isClustered (decryptedDataPoint st5 id) = false) as Hnone5.
  { intros id. unfold decryptedDataPoint. rewrite Hd5. apply Hnone4. }
  destruct (transact_request st5 3 (Hnone5 3)) as (Hd6 & Hs6 & Hl6 & Hr6 & Hc6).
  fold st6 r3 in Hd6, Hs6, Hl6, Hr6, Hc6.
  assert (forall id, isClustered (decryptedDataPoint st6 id) = false) as Hnone6.
  { intros id. unfold decryptedDataPoint. rewrite Hd6. apply Hnone5. }
  (* the oracle assigned three different ids *)
  assert (r1 <> r2 /\ r1 <> r3 /\ r2 <> r3) as (Hr12 & Hr13 & Hr23).
  { unfold r1, r2, r3, clustering_request_id. rewrite Hc5, Hc4, Hctr3.
    repeat split; intros Heq%Huniq; lia. }
  assert (requestToDataPointId st6 !! r1 = Some 1
          /\ requestToDataPointId st6 !! r2 = Some 2
          /\ requestToDataPointId st6 !! r3 = Some 3) as (Hp1 & Hp2 & Hp3).
  { rewrite Hr6, Hr5, Hr4, Hreq3. repeat split.
    - rewrite 2!lookup_insert_ne by (apply not_eq_sym; assumption).
      apply lookup_insert_eq.
    - rewrite lookup_insert_ne by (apply not_eq_sym; assumption).
      apply lookup_insert_eq.
    - apply lookup_insert_eq. }
  (* the three callbacks *)
  subst st9. unfold run. simpl foldl.
  set (st7 := transact st6 (PerformClustering r1 ct1 pf1)).
  set (st8 := transact st7 (PerformClustering r2 ct2 pf2)).
  set (st9 := transact st8 (PerformClustering r3 ct3 pf3)).
  destruct (transact_perform st6 r1 ct1 pf1 1 f1 o1 "A" Hp1 ltac:(lia)
              (Hnone6 1) Hsig1 Hdec1) as (Hd7 & Hs7 & Hl7 & Hr7).
  fold st7 in Hd7, Hs7, Hl7, Hr7.
  assert (clusterStats st6 "A" = Uninit) as Hstats6.
  { unfold clusterStats, mapping_get. by rewrite Hs6, Hs5, Hs4, Hstats3. }
  rewrite Hstats6 in Hs7, Hl7.
  change ((FHE_decrypt Uninit + 1) mod UINT32_MODULUS) with 1 in Hs7.
  change (FHE_isInitialized Uninit) with false in Hl7. cbv iota in Hl7.
  assert (requestToDataPointId st7 !! r2 = Some 2) as Hp2' by by rewrite Hr7.
  assert (isClustered (decryptedDataPoint st7 2) = false) as Hnone7.
  { unfold decryptedDataPoint, mapping_get. rewrite Hd7, lookup_insert_ne by done.
    apply Hnone6. }
  destruct (transact_perform st7 r2 ct2 pf2 2 f2 o2 "A" Hp2' ltac:(lia)
              Hnone7 Hsig2 Hdec2) as (Hd8 & Hs8 & Hl8 & Hr8).
  fold st8 in Hd8, Hs8, Hl8, Hr8.
  assert (clusterStats st7 "A" = Enc 1) as Hstats7.
  { unfold clusterStats, mapping_get. by rewrite Hs7, lookup_insert_eq. }
  rewrite Hstats7 in Hs8, Hl8.
  change ((FHE_decrypt (Enc 1) + 1) mod UINT32_MODULUS) with 2 in Hs8.
  change (FHE_isInitialized (Enc 1)) with true in Hl8. cbv iota in Hl8.
  assert (requestToDataPointId st8 !! r3 = Some 3) as Hp3' by by rewrite Hr8, Hr7.
  assert (isClustered (decryptedDataPoint st8 3) = false) as Hnone8.
  { unfold decryptedDataPoint, mapping_get.
    rewrite Hd8, Hd7, !lookup_insert_ne by done. apply Hnone6. }
  destruct (transact_perform st8 r3 ct3 pf3 3 f3 o3 "B" Hp3' ltac:(lia)
              Hnone8 Hsig3 Hdec3) as (Hd9 & Hs9 & Hl9 & Hr9).
  fold st9 in Hd9, Hs9, Hl9, Hr9.
  assert (clusterStats st8 "B" = Uninit) as Hstats8.
  { unfold clusterStats, mapping_get.
    rewrite Hs8, Hs7, !lookup_insert_ne by done.
    by rewrite Hs6, Hs5, Hs4, Hstats3. }
  rewrite Hstats8 in Hs9, Hl9.
  change ((FHE_decrypt Uninit + 1) mod UINT32_MODULUS) with 1 in Hs9.
  change (FHE_isInitialized Uninit) with false in Hl9. cbv iota in Hl9.
  unfold clusterStats, decryptedDataPoint, mapping_get.
  rewrite Hl9, Hl8, Hl7, Hl6, Hl5, Hl4, Hlist3, Hs9, Hd9, Hd8, Hd7.
  split; [reflexivity|]. split.
  { rewrite lookup_insert_ne by discriminate.
    rewrite Hs8, lookup_insert_eq. reflexivity. }
  split; [rewrite lookup_insert_eq; reflexivity|].
  split; [rewrite 2!lookup_insert_ne, lookup_insert_eq by lia; reflexivity|].
  split; [rewrite lookup_insert_ne, lookup_insert_eq by lia; reflexivity|].
  rewrite lookup_insert_eq. reflexivity.
Qed.

(** ** The read side: centroids and similar clusters *)

Lemma for_loop_cons {A : Type} (body : Z -> A -> Result A) (i : Z)
    (rest : list Z) (acc : A) :
  for_loop body (i :: rest) acc =
  match body i acc with
  | Ok acc' =>
      match checked_incr i with
      | Ok _ => for_loop body rest acc'
      | Reverted r => Reverted r
      end
  | Reverted r => Reverted r
  end.
Proof. done. Qed.

Lemma centroid_body_member (st : State) (c : string) (i : Z) :
  is_member st c i = true ->
  centroid_body st c i (0, []) = Reverted (Panic PANIC_OUT_OF_BOUNDS).
Proof. unfold centroid_body. by intros ->. Qed.

Lemma centroid_body_other (st : State) (c : string) (i : Z)
    (acc : Z * list string) :
  is_member st c i = false -> centroid_body st c i acc = Ok acc.
Proof. unfold centroid_body. destruct acc. by intros ->. Qed.

Lemma checked_incr_lt (x : Z) : x < MAX_UINT256 -> checked_incr x = Ok (x + 1).
Proof.
  intros Hx. unfold checked_incr.
  by destruct (Z.ltb_spec x MAX_UINT256); [|lia].
Qed.

(** The scan stops with a panic at the first member it meets: the array
    [allFeatures] has no slot to write to. *)
Lemma centroid_loop_member (st : State) (c : string) (len : nat) :
  forall first i,
    first <= i < first + Z.of_nat len ->
    first + Z.of_nat len - 1 <= MAX_UINT256 ->
    is_member st c i = true ->
    for_loop (centroid_body st c) (seqZ first (Z.of_nat len)) (0, [])
    = Reverted (Panic PANIC_OUT_OF_BOUNDS).
Proof.
  induction len as [|len IH]; intros first i Hi Hmax Hmem; [lia|].
  rewrite seqZ_cons by lia. rewrite for_loop_cons.
  replace (Z.pred (Z.of_nat (S len))) with (Z.of_nat len) by lia.
  destruct (is_member st c first) eqn:Hfirst.
  - by rewrite centroid_body_member.
  - rewrite centroid_body_other by done.
    assert (first <> i) by (intros ->; congruence).
    rewrite checked_incr_lt by lia. apply (IH _ i); [lia|lia|done].
Qed.

Lemma centroid_loop_no_member (st : State) (c : string) (len : nat) :
  forall first,
    (forall i, first <= i < first + Z.of_nat len -> is_member st c i = false) ->
    first + Z.of_nat len - 1 < MAX_UINT256 ->
    for_loop (centroid_body st c) (seqZ first (Z.of_nat len)) (0, [])
    = Ok (0, []).
Proof.
  induction len as [|len IH]; intros first Hnone Hmax; [done|].
  rewrite seqZ_cons by lia. rewrite for_loop_cons.
  replace (Z.pred (Z.of_nat (S len))) with (Z.of_nat len) by lia.
  rewrite centroid_body_other by (apply Hnone; lia).
  rewrite checked_incr_lt by lia. apply IH; [|lia].
  intros i Hi. apply Hnone. lia.
Qed.

(** [calculateClusterCentroids] panics as soon as the cluster has a clustered
    member among the records 1, ..., [dataPointCount]. *)
Lemma calculateClusterCentroids_member (st : State) (c : string) (i : Z) :
  dataPointCount st <= MAX_UINT256 ->
  1 <= i <= dataPointCount st ->
  is_member st c i = true ->
  calculateClusterCentroids st c = Reverted (Panic PANIC_OUT_OF_BOUNDS).
Proof.
  intros Hmax Hi Hmem. unfold calculateClusterCentroids.
  rewrite <- (Z2Nat.id (dataPointCount st)) by lia.
  by rewrite (centroid_loop_member st c _ 1 i) by (try done; lia).
Qed.

(** It returns the empty string when the cluster has no such member. *)
Lemma calculateClusterCentroids_no_member (st : State) (c : string) :
  dataPointCount st < MAX_UINT256 ->
  (forall i, 1 <= i <= dataPointCount st -> is_member st c i = false) ->
  calculateClusterCentroids st c = Ok "".
Proof.
  intros Hmax Hnone. unfold calculateClusterCentroids.
  destruct (Z.le_gt_cases 0 (dataPointCount st)).
  - rewrite <- (Z2Nat.id (dataPointCount st)) by lia.
    rewrite centroid_loop_no_member; [done| |lia].
    intros i Hi. apply Hnone. lia.
  - by rewrite seqZ_nil by lia.
Qed.

(** When [dataPointCount] is the largest [uint256], the [i++] that follows
    the last round of the scan overflows. *)
Lemma centroid_loop_overflow (st : State) (c : string) (len : nat) :
  forall first,
    (0 < len)%nat ->
    first + Z.of_nat len - 1 = MAX_UINT256 ->
    (forall i, first <= i < first + Z.of_nat len -> is_member st c i = false) ->
    for_loop (centroid_body st c) (seqZ first (Z.of_nat len)) (0, [])
    = Reverted (Panic PANIC_OVERFLOW).
Proof.
  induction len as [|len IH]; intros first Hlen Hlast Hnone; [lia|].
  rewrite seqZ_cons by lia. rewrite for_loop_cons.
  replace (Z.pred (Z.of_nat (S len))) with (Z.of_nat len) by lia.
  rewrite centroid_body_other by (apply Hnone; lia).
  destruct len as [|len].
  - unfold checked_incr. by destruct (Z.ltb_spec first MAX_UINT256); [lia|].
  - rewrite checked_incr_lt by lia. apply IH; [lia|lia|].
    intros i Hi. apply Hnone. lia.
Qed.

(** So it never returns a feature string of the cluster. *)
Lemma calculateClusterCentroids_result (st : State) (c s : string) :
  dataPointCount st <= MAX_UINT256 ->
  calculateClusterCentroids st c = Ok s ->
  s = "" /\ forall i, 1 <= i <= dataPointCount st -> is_member st c i = false.
Proof.
  intros Hmax Hok.
  assert (forall i, 1 <= i <= dataPointCount st -> is_member st c i = false)
    as Hnone.
  { intros i Hi. destruct (is_member st c i) eqn:Hmem; [|done].
    rewrite (calculateClusterCentroids_member st c i) in Hok; done. }
  split; [|done].
  destruct (decide (dataPointCount st = MAX_UINT256)) as [Heq|Hne].
  - unfold calculateClusterCentroids in Hok.
    rewrite <- (Z2Nat.id (dataPointCount st)) in Hok
      by (rewrite Heq; unfold MAX_UINT256; lia).
    rewrite centroid_loop_overflow in Hok; [done| | |].
    + rewrite Heq. unfold MAX_UINT256. lia.
    + rewrite Z2Nat.id by (rewrite Heq; unfold MAX_UINT256; lia). lia.
    + intros i Hi. apply Hnone.
      rewrite Z2Nat.id in Hi by (rewrite Heq; unfold MAX_UINT256; lia). lia.
  - rewrite calculateClusterCentroids_no_member in Hok by (done || lia).
    congruence.
Qed.

(** [findSimilarClusters] panics when the first registered cluster has a
    clustered member among the records 1, ..., [dataPointCount]. *)
Lemma findSimilarClusters_member (st : State) (targetFeatures : string)
    (similarityThreshold : Z) (c : string) (rest : list string) (i : Z) :
  dataPointCount st <= MAX_UINT256 ->
  clusterList st = c :: rest ->
  1 <= i <= dataPointCount st ->
  is_member st c i = true ->
  findSimilarClusters st targetFeatures similarityThreshold
  = Reverted (Panic PANIC_OUT_OF_BOUNDS).
Proof.
  intros Hmax Hlist Hi Hmem. unfold findSimilarClusters. rewrite Hlist.
  simpl. by rewrite (calculateClusterCentroids_member st c i).
Qed.

(** The two loops of [findSimilarClusters], when every centroid is computed. *)
Lemma findSimilarClusters_count_spec (st : State) (targetFeatures : string)
    (similarityThreshold : Z) (centroid : string -> string)
    (clusters : list string) :
  forall count,
    (forall c, c ∈ clusters -> calculateClusterCentroids st c = Ok (centroid c)) ->
    0 <= count ->
    count + Z.of_nat (length clusters) <= MAX_UINT256 ->
    findSimilarClusters_count st targetFeatures similarityThreshold clusters count
    = Ok (count + Z.of_nat (length
            (similarClusters_spec centroid targetFeatures similarityThreshold
               clusters))).
Proof.
  unfold similarClusters_spec.
  induction clusters as [|c clusters IH]; intros count Hcent Hcount Hmax; simpl.
  - f_equal. lia.
  - rewrite Hcent by apply list_elem_of_here. simpl.
    simpl length in Hmax.
    assert (forall c', c' ∈ clusters ->
              calculateClusterCentroids st c' = Ok (centroid c')) as Hrest.
    { intros c' Hin. apply Hcent. by apply list_elem_of_further. }
    destruct (Z.leb_spec similarityThreshold
                (calculateSimilarity targetFeatures (centroid c))) as [Hle|Hgt].
    + rewrite filter_cons_True by done.
      rewrite checked_incr_lt by lia. simpl.
      rewrite IH by (done || lia). f_equal. simpl length. lia.
    + rewrite filter_cons_False by lia. apply IH; (done || lia).
Qed.

Lemma findSimilarClusters_fill_spec (st : State) (targetFeatures : string)
    (similarityThreshold : Z) (centroid : string -> string)
    (clusters : list string) :
  forall filled : list string,
    (forall c, c ∈ clusters -> calculateClusterCentroids st c = Ok (centroid c)) ->
    Z.of_nat (length filled) + Z.of_nat (length clusters) <= MAX_UINT256 ->
    findSimilarClusters_fill st targetFeatures similarityThreshold clusters
      (filled ++
       replicate
         (length (similarClusters_spec centroid targetFeatures
                    similarityThreshold clusters)) "")
      (Z.of_nat (length filled))
    = Ok (filled ++
          similarClusters_spec centroid targetFeatures similarityThreshold
            clusters).
Proof.
  unfold similarClusters_spec.
  induction clusters as [|c clusters IH]; intros filled Hcent Hmax; simpl.
  - done.
  - rewrite Hcent by apply list_elem_of_here. simpl.
    simpl length in Hmax.
    assert (forall c', c' ∈ clusters ->
              calculateClusterCentroids st c' = Ok (centroid c')) as Hrest.
    { intros c' Hin. apply Hcent. by apply list_elem_of_further. }
    destruct (Z.leb_spec similarityThreshold
                (calculateSimilarity targetFeatures (centroid c))) as [Hle|Hgt].
    + rewrite filter_cons_True by done. simpl replicate.
      unfold array_set. rewrite length_app. simpl length.
      destruct (Z.leb_spec 0 (Z.of_nat (length filled))); [|lia].
      destruct (Z.ltb_spec (Z.of_nat (length filled))
                  (Z.of_nat (length filled + S (length (replicate
                     (length (filter
                        (fun c0 => similarityThreshold <=
                           calculateSimilarity targetFeatures (centroid c0))
                        clusters)) ""))))); [|lia].
      simpl. rewrite Nat2Z.id.
      rewrite insert_app_r_alt, Nat.sub_diag by done. simpl.
      rewrite checked_incr_lt by lia. simpl.
      replace (Z.of_nat (length filled) + 1)
        with (Z.of_nat (length (filled ++ [c])))
        by (rewrite length_app; simpl; lia).
      rewrite (cons_middle c filled), app_assoc.
      rewrite IH; [by rewrite <- app_assoc|done|].
      rewrite length_app. simpl. lia.
    + rewrite filter_cons_False by lia. apply IH; (done || lia).
Qed.

(** Apart from the computation of the centroids, [findSimilarClusters] does
    what the specification says: when every centroid is computed, it returns
    the known clusters whose score reaches the threshold, in the order of the
    registry. *)
Lemma findSimilarClusters_filter (st : State) (targetFeatures : string)
    (similarityThreshold : Z) (centroid : string -> string) :
  (forall c, c ∈ clusterList st ->
     calculateClusterCentroids st c = Ok (centroid c)) ->
  Z.of_nat (length (clusterList st)) <= MAX_UINT256 ->
  findSimilarClusters st targetFeatures similarityThreshold
  = Ok (similarClusters_spec centroid targetFeatures similarityThreshold
          (clusterList st)).
Proof.
  intros Hcent Hmax. unfold findSimilarClusters.
  rewrite (findSimilarClusters_count_spec _ _ _ centroid) by (done || lia).
  rewrite Z.add_0_l. unfold mbind, Result_bind. rewrite Nat2Z.id.
  apply (findSimilarClusters_fill_spec _ _ _ centroid _ []); [done|].
  simpl. lia.
Qed.

(** What a request and a callback leave alone, whether they go through or
    revert. *)
Lemma transact_request_count (st : State) (id : Z) :
  dataPointCount (transact st (RequestFederatedClustering id))
  = dataPointCount st.
Proof.
  unfold transact. simpl. case_result Hcall; [|done]. by invert_call Hcall.
Qed.

Lemma transact_submit_fresh (st : State) ef eo ec ts :
  dataPointCount st < MAX_UINT256 ->
  dataPointCount (transact st (SubmitEncryptedDataPoint ef eo ec ts))
    = dataPointCount st + 1
  /\ isClustered
       (decryptedDataPoint (transact st (SubmitEncryptedDataPoint ef eo ec ts))
          (dataPointCount st + 1)) = false.
Proof.
  intros Hmax. destruct (submit_succeeds st ef eo ec ts Hmax) as [st' Hcall].
  unfold transact. simpl. rewrite Hcall. invert_call Hcall.
  split; [done|]. unfold decryptedDataPoint, mapping_get.
  by rewrite Hdec, lookup_insert_eq.
Qed.

Lemma transact_perform_count (st : State) (r : Z) (ct pf : bytes) :
  dataPointCount (transact st (PerformClustering r ct pf)) = dataPointCount st
  /\ counterRequest (transact st (PerformClustering r ct pf))
     = counterRequest st.
Proof.
  unfold transact. simpl. case_result Hcall; [|done]. by invert_perform Hcall.
Qed.

End Properties.

(** * The contract on concrete inputs *)

Lemma test_oracle_unique : oracle_unique (env := test_FHEVM).
Proof. intros m n h1 h2 s1 s2 Heq. simpl in Heq. lia. Qed.

Lemma one_clustered_reachable : reachable (env := test_FHEVM) one_clustered.
Proof. apply run_reachable. constructor. Qed.

(** C2. After one data point was submitted, requested and clustered into "A"
    with the feature string "f", record 1 is a clustered member of "A" and
    [calculateClusterCentroids "A"] does not return "f": it reverts with
    the out-of-bounds panic, because [allFeatures] was never allocated. *)
Theorem calculateClusterCentroids_panics :
  reachable (env := test_FHEVM) one_clustered
  /\ dataPointCount one_clustered = 1
  /\ is_member (env := test_FHEVM) one_clustered "A" 1 = true
  /\ features (decryptedDataPoint one_clustered 1) = "f"
  /\ calculateClusterCentroids (env := test_FHEVM) one_clustered "A"
     = Reverted (Panic PANIC_OUT_OF_BOUNDS).
Proof.
  split; [apply one_clustered_reachable|].
  split; [by vm_compute|]. split; [by vm_compute|]. split; [by vm_compute|].
  apply (calculateClusterCentroids_member _ _ 1); by vm_compute.
Qed.

(** C9. In the same state the registry is ["A"] and the target "f" equals
    the feature string of the only member of "A", yet
    [findSimilarClusters "f" 100] does not return ["A"]: it reverts with the
    panic of [calculateClusterCentroids]. *)
Theorem findSimilarClusters_panics :
  reachable (env := test_FHEVM) one_clustered
  /\ clusterList one_clustered = ["A"]
  /\ features (decryptedDataPoint one_clustered 1) = "f"
  /\ calculateSimilarity (env := test_FHEVM) "f" "f" = 100
  /\ findSimilarClusters (env := test_FHEVM) one_clustered "f" 100
     = Reverted (Panic PANIC_OUT_OF_BOUNDS).
Proof.
  split; [apply one_clustered_reachable|].
  split; [by vm_compute|]. split; [by vm_compute|]. split; [by vm_compute|].
  apply (findSimilarClusters_member _ _ _ "A" [] 1); by vm_compute.
Qed.

(** The scenario of C1 on the test instance. *)
Lemma performClustering_correct_witness :
  let st3 :=
    run (env := test_FHEVM) init
      [SubmitEncryptedDataPoint (Enc 1) (Enc 2) (Enc 3) 1000;
       SubmitEncryptedDataPoint (Enc 4) (Enc 5) (Enc 6) 1001;
       SubmitEncryptedDataPoint (Enc 7) (Enc 8) (Enc 9) 1002] in
  let r1 := clustering_request_id (env := test_FHEVM) st3 1 in
  let st4 := transact (env := test_FHEVM) st3 (RequestFederatedClustering 1) in
  let r2 := clustering_request_id (env := test_FHEVM) st4 2 in
  let st5 := transact (env := test_FHEVM) st4 (RequestFederatedClustering 2) in
  let r3 := clustering_request_id (env := test_FHEVM) st5 3 in
  let st6 := transact (env := test_FHEVM) st5 (RequestFederatedClustering 3) in
  let st9 :=
    run (env := test_FHEVM) st6
      [PerformClustering r1 cleartext_A valid_proof;
       PerformClustering r2 cleartext_A valid_proof;
       PerformClustering r3 cleartext_B valid_proof] in
  clusterList st9 = ["A"; "B"]
  /\ FHE_decrypt (clusterStats st9 "A") = 2
  /\ FHE_decrypt (clusterStats st9 "B") = 1
  /\ isClustered (decryptedDataPoint st9 1) = true
  /\ isClustered (decryptedDataPoint st9 2) = true
  /\ isClustered (decryptedDataPoint st9 3) = true.
Proof.
  exact (proj2 (performClustering_correct (env := test_FHEVM))
           (Enc 1) (Enc 2) (Enc 3) 1000 (Enc 4) (Enc 5) (Enc 6) 1001
           (Enc 7) (Enc 8) (Enc 9) 1002
           cleartext_A valid_proof cleartext_A valid_proof
           cleartext_B valid_proof "f" "o" "f" "o" "g" "o"
           test_oracle_unique
           eq_refl eq_refl eq_refl eq_refl eq_refl eq_refl).
Defined.

(** A round up to the callback: the data point is submitted and its
    clustering requested. *)
Lemma round_prepared (st : State) (k : nat) :
  reachable (env := test_FHEVM) st ->
  dataPointCount st = Z.of_nat k ->
  counterRequest st = k ->
  Z.of_nat k < MAX_UINT256 ->
  let st2 :=
    run (env := test_FHEVM) st
      [SubmitEncryptedDataPoint (Enc 7) (Enc 8) (Enc 9) 1000;
       RequestFederatedClustering (Z.of_nat k + 1)] in
  reachable (env := test_FHEVM) st2
  /\ dataPointCount st2 = Z.of_nat k + 1
  /\ counterRequest st2 = S k
  /\ requestToDataPointId st2 !! Z.of_nat k = Some (Z.of_nat k + 1)
  /\ isClustered (decryptedDataPoint st2 (Z.of_nat k + 1)) = false
  /\ clusterStats st2 "A" = clusterStats st "A".
Proof.
  intros Hst Hcount Hctr Hmax st2.
  set (st1 := transact (env := test_FHEVM) st
                (SubmitEncryptedDataPoint (Enc 7) (Enc 8) (Enc 9) 1000)).
  assert (st2 = transact (env := test_FHEVM) st1
                  (RequestFederatedClustering (Z.of_nat k + 1))) as Hst2
    by reflexivity.
  destruct (transact_submit_fresh (env := test_FHEVM) st
              (Enc 7) (Enc 8) (Enc 9) 1000) as [Hcount1 Hzero]; [lia|].
  destruct (transact_submit (env := test_FHEVM) st (Enc 7) (Enc 8) (Enc 9) 1000)
    as (Hstats1 & _ & _ & Hctr1 & _).
  fold st1 in Hcount1, Hzero, Hstats1, Hctr1. rewrite Hcount in Hcount1, Hzero.
  assert (isClustered (decryptedDataPoint st1 (Z.of_nat k + 1)) = false)
    as Hfresh1 by exact Hzero.
  destruct (transact_request (env := test_FHEVM) st1 (Z.of_nat k + 1) Hfresh1)
    as (Hdec2 & Hstats2 & _ & Hreq2 & Hctr2).
  pose proof (transact_request_count (env := test_FHEVM) st1 (Z.of_nat k + 1))
    as Hcount2.
  rewrite <- Hst2 in Hdec2, Hstats2, Hreq2, Hctr2, Hcount2.
  assert (clustering_request_id (env := test_FHEVM) st1 (Z.of_nat k + 1)
          = Z.of_nat k) as Hid.
  { change (clustering_request_id (env := test_FHEVM) st1 (Z.of_nat k + 1))
      with (Z.of_nat (counterRequest st1)).
    by rewrite Hctr1, Hctr. }
  rewrite Hid in Hreq2.
  split; [apply run_reachable; exact Hst|].
  split; [by rewrite Hcount2|].
  split; [by rewrite Hctr2, Hctr1, Hctr|].
  split; [by rewrite Hreq2, lookup_insert_eq|].
  split.
  - unfold decryptedDataPoint. rewrite Hdec2. exact Hfresh1.
  - unfold clusterStats. by rewrite Hstats2, Hstats1.
Qed.

(** After [n] rounds, fewer than [2^32], the aggregate of "A" counts them. *)
Lemma after_rounds_spec (n : nat) :
  Z.of_nat n < UINT32_MODULUS ->
  reachable (env := test_FHEVM) (after_rounds n)
  /\ dataPointCount (after_rounds n) = Z.of_nat n
  /\ counterRequest (after_rounds n) = n
  /\ FHE_decrypt (clusterStats (after_rounds n) "A") = Z.of_nat n.
Proof.
  induction n as [|k IH]; intros Hsmall.
  - split; [constructor|]. by repeat split.
  - destruct IH as (Hst & Hcount & Hctr & Hsum); [lia|].
    assert (Z.of_nat k < MAX_UINT256) as Hmax
      by (unfold UINT32_MODULUS, MAX_UINT256 in *; lia).
    destruct (round_prepared (after_rounds k) k Hst Hcount Hctr Hmax)
      as (Hst2 & Hcount2 & Hctr2 & Hpending & Hfresh & Hstats2).
    change (after_rounds (S k))
      with (transact (env := test_FHEVM)
              (run (env := test_FHEVM) (after_rounds k)
                 [SubmitEncryptedDataPoint (Enc 7) (Enc 8) (Enc 9) 1000;
                  RequestFederatedClustering (Z.of_nat k + 1)])
              (PerformClustering (Z.of_nat k) cleartext_A valid_proof)).
    set (st2 := run (env := test_FHEVM) (after_rounds k) _) in *.
    destruct (transact_perform_count (env := test_FHEVM) st2 (Z.of_nat k)
                cleartext_A valid_proof) as [Hcount3 Hctr3].
    destruct (transact_perform (env := test_FHEVM) st2 (Z.of_nat k)
                cleartext_A valid_proof (Z.of_nat k + 1) "f" "o" "A")
      as (_ & Hstats3 & _); [done|lia|done|reflexivity|reflexivity|].
    split; [by constructor|]. split; [rewrite Hcount3, Hcount2; lia|].
    split; [by rewrite Hctr3, Hctr2|].
    unfold clusterStats at 1. unfold mapping_get.
    rewrite Hstats3, lookup_insert_eq. simpl default. simpl FHE_decrypt.
    rewrite Hstats2, Hsum. rewrite Z.mod_small by lia. lia.
Qed.

Lemma wrap_rounds_eq : Z.of_nat wrap_rounds = UINT32_MODULUS - 1.
Proof. apply Z2Nat.id. unfold UINT32_MODULUS. lia. Qed.

(** The callback that follows [n] rounds, when [n] is [2^32 - 1]. *)
Lemma aggregate_wraps_after (n : nat) :
  Z.of_nat n = UINT32_MODULUS - 1 ->
  let st :=
    run (env := test_FHEVM) (after_rounds n)
      [SubmitEncryptedDataPoint (Enc 7) (Enc 8) (Enc 9) 1000;
       RequestFederatedClustering (Z.of_nat n + 1)] in
  let requestId := Z.of_nat n in
  let id := Z.of_nat n + 1 in
  reachable (env := test_FHEVM) st
  /\ 1 <= id <= dataPointCount st
  /\ requestToDataPointId st !! requestId = Some id
  /\ isClustered (decryptedDataPoint st id) = false
  /\ FHE_checkSignatures (FHEVM := test_FHEVM) requestId cleartext_A valid_proof
     = true
  /\ abi_decode_strings (FHEVM := test_FHEVM) cleartext_A = Some ("f", "o", "A")
  /\ FHE_decrypt (clusterStats st "A") = UINT32_MODULUS - 1
  /\ exists st',
       performClustering (env := test_FHEVM) st requestId cleartext_A valid_proof
       = Ok st'
       /\ isClustered (decryptedDataPoint st' id) = true
       /\ FHE_decrypt (clusterStats st' "A") = 0
       /\ FHE_decrypt (clusterStats st' "A")
          <> FHE_decrypt (clusterStats st "A") + 1.
Proof.
  intros Hlast st requestId id.
  destruct (after_rounds_spec n) as (Hst & Hcount & Hctr & Hsum);
    [unfold UINT32_MODULUS in *; lia|].
  assert (Z.of_nat n < MAX_UINT256) as Hmax
    by (unfold UINT32_MODULUS, MAX_UINT256 in *; lia).
  destruct (round_prepared (after_rounds n) n Hst Hcount Hctr Hmax)
    as (Hst2 & Hcount2 & Hctr2 & Hpending & Hfresh & Hstats2).
  fold st in Hst2, Hcount2, Hctr2, Hpending, Hfresh, Hstats2.
  assert (FHE_decrypt (clusterStats st "A") = UINT32_MODULUS - 1) as Hfull
    by by rewrite Hstats2, Hsum.
  destruct (performClustering_effect (env := test_FHEVM) st requestId
              cleartext_A valid_proof id "f" "o" "A")
    as (st' & Hcall & Hrecord & _ & Hnew & _); [done|unfold id; lia|done..|].
  assert (FHE_decrypt (clusterStats st' "A") = 0) as Hzero.
  { rewrite Hnew, Hfull.
    replace (UINT32_MODULUS - 1 + 1) with (1 * UINT32_MODULUS) by lia.
    apply Z.mod_mul. unfold UINT32_MODULUS. lia. }
  split; [done|]. split; [unfold id; lia|]. split; [done|]. split; [done|].
  split; [reflexivity|]. split; [reflexivity|]. split; [done|].
  exists st'. split; [done|]. split; [by rewrite Hrecord|]. split; [done|].
  rewrite Hzero, Hfull. unfold UINT32_MODULUS. lia.
Qed.

(** C1, the claim as stated fails: after [2^32 - 1] data points were
    clustered into "A" on the test instance, one more is submitted and its
    clustering requested.  The record is not clustered, its request is
    pending and the proof is valid; the callback goes through and sets
    [isClustered], but the aggregate of "A" goes from [2^32 - 1] to 0
    instead of growing by one. *)
Lemma performClustering_aggregate_wraps :
  let st :=
    run (env := test_FHEVM) (after_rounds wrap_rounds)
      [SubmitEncryptedDataPoint (Enc 7) (Enc 8) (Enc 9) 1000;
       RequestFederatedClustering (Z.of_nat wrap_rounds + 1)] in
  let requestId := Z.of_nat wrap_rounds in
  let id := Z.of_nat wrap_rounds + 1 in
  reachable (env := test_FHEVM) st
  /\ 1 <= id <= dataPointCount st
  /\ requestToDataPointId st !! requestId = Some id
  /\ isClustered (decryptedDataPoint st id) = false
  /\ FHE_checkSignatures (FHEVM := test_FHEVM) requestId cleartext_A valid_proof
     = true
  /\ abi_decode_strings (FHEVM := test_FHEVM) cleartext_A = Some ("f", "o", "A")
  /\ FHE_decrypt (clusterStats st "A") = UINT32_MODULUS - 1
  /\ exists st',
       performClustering (env := test_FHEVM) st requestId cleartext_A valid_proof
       = Ok st'
       /\ isClustered (decryptedDataPoint st' id) = true
       /\ FHE_decrypt (clusterStats st' "A") = 0
       /\ FHE_decrypt (clusterStats st' "A")
          <> FHE_decrypt (clusterStats st "A") + 1.
Proof. exact (aggregate_wraps_after wrap_rounds wrap_rounds_eq). Qed.

(** C3 on the test instance: request 0 is registered, request 7 is not. *)
Lemma performClustering_unknown_request_witness :
  performClustering (env := test_FHEVM) one_requested 7 cleartext_A valid_proof
    = Reverted InvalidRequest
  /\ transact (env := test_FHEVM) one_requested
       (PerformClustering 7 cleartext_A valid_proof) = one_requested.
Proof.
  assert (7 ∉ registered_ids (env := test_FHEVM) init
                [SubmitEncryptedDataPoint (Enc 7) (Enc 8) (Enc 9) 1000;
                 RequestFederatedClustering 1]) as Hnew.
  { intros Hin%list_elem_of_In. vm_compute in Hin.
    destruct Hin as [Hin|[]]. discriminate Hin. }
  exact (performClustering_unknown_request (env := test_FHEVM)
           [SubmitEncryptedDataPoint (Enc 7) (Enc 8) (Enc 9) 1000;
            RequestFederatedClustering 1] 7 cleartext_A valid_proof Hnew).
Defined.

(** C4 on the test instance: record 1 is clustered, record 2 is not. *)
Lemma requestFederatedClustering_spec_witness :
  requestFederatedClustering (env := test_FHEVM) one_clustered 1
    = Reverted AlreadyClustered
  /\ exists st',
       let requestId := clustering_request_id (env := test_FHEVM) one_clustered 2 in
       requestFederatedClustering (env := test_FHEVM) one_clustered 2 = Ok st'
       /\ requestToDataPointId st' =
            <[requestId := 2]> (requestToDataPointId one_clustered)
       /\ pendingRequest st' requestId = 2
       /\ (requestId ∉ registered_ids (env := test_FHEVM) init one_clustered_calls)
       /\ requestToDataPointId one_clustered !! requestId = None.
Proof.
  assert (isClustered (decryptedDataPoint one_clustered 1) = true) as Hclustered
    by (vm_compute; reflexivity).
  assert (isClustered (decryptedDataPoint one_clustered 2) = false) as Hfresh
    by (vm_compute; reflexivity).
  split.
  - exact (proj1 (requestFederatedClustering_spec (env := test_FHEVM)
                    one_clustered_calls 1) Hclustered).
  - destruct (proj2 (requestFederatedClustering_spec (env := test_FHEVM)
                       one_clustered_calls 2) Hfresh)
      as (st' & Hcall & Hmap & Hpending & Hnew).
    exists st'. split; [exact Hcall|]. split; [exact Hmap|].
    split; [exact Hpending|]. exact (Hnew test_oracle_unique).
Defined.

(** C5, the claim as stated fails: record 1 is clustered, the request 0
    on it is still registered, and the proof is invalid; the callback
    reverts with "Already clustered", not with the invalid-proof error. *)
Lemma performClustering_guard_counterexample :
  reachable (env := test_FHEVM) one_clustered
  /\ pendingRequest one_clustered 0 = 1
  /\ isClustered (decryptedDataPoint one_clustered 1) = true
  /\ FHE_checkSignatures (FHEVM := test_FHEVM) 0 cleartext_A invalid_proof = false
  /\ performClustering (env := test_FHEVM) one_clustered 0 cleartext_A invalid_proof
     = Reverted AlreadyClustered
  /\ performClustering (env := test_FHEVM) one_clustered 0 cleartext_A invalid_proof
     <> Reverted InvalidSignatures.
Proof.
  split; [apply one_clustered_reachable|].
  split; [vm_compute; reflexivity|]. split; [vm_compute; reflexivity|].
  split; [vm_compute; reflexivity|]. split; [vm_compute; reflexivity|].
  vm_compute. discriminate.
Qed.

(** C5 as amended, on the test instance: a valid proof for a clustered
    record, and an invalid proof for a record that is not clustered. *)
Lemma performClustering_guard_before_proof_witness :
  performClustering (env := test_FHEVM) one_clustered 0 cleartext_A valid_proof
    = Reverted AlreadyClustered
  /\ performClustering (env := test_FHEVM) one_requested 0 cleartext_A invalid_proof
     = Reverted InvalidSignatures.
Proof.
  assert (pendingRequest one_clustered 0 <> 0) as Hpending1
    by (vm_compute; discriminate).
  assert (pendingRequest one_requested 0 <> 0) as Hpending2
    by (vm_compute; discriminate).
  assert (isClustered (decryptedDataPoint one_clustered
                         (pendingRequest one_clustered 0)) = true) as Hclustered
    by (vm_compute; reflexivity).
  assert (isClustered (decryptedDataPoint one_requested
                         (pendingRequest one_requested 0)) = false) as Hfresh
    by (vm_compute; reflexivity).
  assert (FHE_checkSignatures (FHEVM := test_FHEVM) 0 cleartext_A invalid_proof
          = false) as Hinvalid by reflexivity.
  split.
  - exact (proj1 (performClustering_guard_before_proof (env := test_FHEVM)
                    one_clustered 0 cleartext_A valid_proof Hpending1)
             Hclustered).
  - exact (proj2 (performClustering_guard_before_proof (env := test_FHEVM)
                    one_requested 0 cleartext_A invalid_proof Hpending2)
             Hfresh Hinvalid).
Defined.

(** C6 on the test instance. *)
Lemma clusterList_no_duplicates_witness :
  NoDup (clusterList one_clustered)
  /\ clusterId (decryptedDataPoint one_clustered 1) ∈ clusterList one_clustered.
Proof.
  assert (isClustered (decryptedDataPoint one_clustered 1) = true) as Hclustered
    by (vm_compute; reflexivity).
  destruct (clusterList_no_duplicates (env := test_FHEVM) one_clustered
              one_clustered_reachable) as (Hnodup & Hmember & _).
  split; [exact Hnodup|exact (Hmember 1 Hclustered)].
Defined.

(** C7 on the test instance: record 1 stays as it is through
    another submission, another request on it and another callback. *)
Lemma isClustered_stable_witness :
  let later :=
    run (env := test_FHEVM) one_clustered
      [SubmitEncryptedDataPoint (Enc 1) (Enc 2) (Enc 3) 2000;
       RequestFederatedClustering 1;
       PerformClustering 0 cleartext_B valid_proof] in
  decryptedDataPoint later 1 = decryptedDataPoint one_clustered 1
  /\ isClustered (decryptedDataPoint later 1) = true.
Proof.
  assert (1 <= dataPointCount one_clustered) as Hassigned
    by (vm_compute; discriminate).
  assert (isClustered (decryptedDataPoint one_clustered 1) = true) as Hclustered
    by (vm_compute; reflexivity).
  exact (proj2 (isClustered_stable (env := test_FHEVM) one_clustered 1
                  [SubmitEncryptedDataPoint (Enc 1) (Enc 2) (Enc 3) 2000;
                   RequestFederatedClustering 1;
                   PerformClustering 0 cleartext_B valid_proof]
                  one_clustered_reachable) Hassigned Hclustered).
Defined.

(** C8 on the test instance: a second submission after [one_clustered]
    goes through and takes the id 2, and three submissions on a fresh
    contract take the ids 1, 2 and 3. *)
Lemma submission_ids_sequential_witness :
  (exists st',
     submitEncryptedDataPoint one_clustered (Enc 1) (Enc 2) (Enc 3) 2000
     = Ok st'
     /\ dataPointCount st' = dataPointCount one_clustered + 1
     /\ submitted_ids (events st')
        = submitted_ids (events one_clustered)
          ++ [dataPointCount one_clustered + 1])
  /\ dataPointCount
       (run (env := test_FHEVM) init
          (map submission_call
             [(Enc 1, Enc 2, Enc 3, 1000); (Enc 4, Enc 5, Enc 6, 1001);
              (Enc 7, Enc 8, Enc 9, 1002)]))
     = dataPointCount init
       + Z.of_nat (length [(Enc 1, Enc 2, Enc 3, 1000);
                           (Enc 4, Enc 5, Enc 6, 1001);
                           (Enc 7, Enc 8, Enc 9, 1002)])
  /\ submitted_ids
       (events
          (run (env := test_FHEVM) init
             (map submission_call
                [(Enc 1, Enc 2, Enc 3, 1000); (Enc 4, Enc 5, Enc 6, 1001);
                 (Enc 7, Enc 8, Enc 9, 1002)])))
     = seqZ 1 (dataPointCount init
               + Z.of_nat (length [(Enc 1, Enc 2, Enc 3, 1000);
                                   (Enc 4, Enc 5, Enc 6, 1001);
                                   (Enc 7, Enc 8, Enc 9, 1002)])).
Proof.
  assert (dataPointCount one_clustered < MAX_UINT256) as Hmax
    by (vm_compute; reflexivity).
  assert (dataPointCount init
          + Z.of_nat (length [(Enc 1, Enc 2, Enc 3, 1000);
                              (Enc 4, Enc 5, Enc 6, 1001);
                              (Enc 7, Enc 8, Enc 9, 1002)])
          <= MAX_UINT256) as Hfit by (vm_compute; discriminate).
  destruct (submission_ids_sequential (env := test_FHEVM) one_clustered
              one_clustered_reachable)
    as (_ & _ & Hstep & Hsucceeds & _).
  destruct (submission_ids_sequential (env := test_FHEVM) init
              (reachable_init (env := test_FHEVM)))
    as (_ & _ & _ & _ & _ & Hsequence).
  split.
  - destruct (Hsucceeds (Enc 1) (Enc 2) (Enc 3) 2000 Hmax) as [st' Hcall].
    exists st'. split; [exact Hcall|].
    destruct (Hstep (Enc 1) (Enc 2) (Enc 3) 2000 st' Hcall)
      as (Hcount & Hids & _).
    split; [exact Hcount|exact Hids].
  - exact (Hsequence _ Hfit).
Defined.

(** C10 on the test instance: the aggregate of "A" is requested and the
    callback delivers the count 1. *)
Lemma decryptClusterStats_frame_witness :
  let requestId := stats_request_id (env := test_FHEVM) one_clustered "A" in
  let st1 :=
    transact (env := test_FHEVM) one_clustered (RequestClusterStatsDecryption "A") in
  decryptClusterStats (env := test_FHEVM) st1 requestId [Byte.x01] valid_proof
    = Ok st1
  /\ transact (env := test_FHEVM) st1
       (DecryptClusterStats requestId [Byte.x01] valid_proof) = st1.
Proof.
  assert (requestClusterStatsDecryption (env := test_FHEVM) one_clustered "A"
          = Ok (transact (env := test_FHEVM) one_clustered
                  (RequestClusterStatsDecryption "A"))) as Hrequest.
  { unfold transact. simpl dispatch.
    destruct (requestClusterStatsDecryption one_clustered "A") eqn:Hcall;
      [reflexivity|].
    exfalso. vm_compute in Hcall. discriminate Hcall. }
  assert (FHE_checkSignatures (FHEVM := test_FHEVM)
            (stats_request_id (env := test_FHEVM) one_clustered "A")
            [Byte.x01] valid_proof = true) as Hvalid by reflexivity.
  assert (abi_decode_uint32 (FHEVM := test_FHEVM) [Byte.x01] = Some 1) as Hdecode
    by reflexivity.
  destruct (decryptClusterStats_frame (env := test_FHEVM) one_clustered _ "A"
              [Byte.x01] valid_proof 1 one_clustered_reachable
              Hrequest Hvalid Hdecode) as (Hok & Hframe & _).
  split; [exact Hok|exact Hframe].
Defined.

(** * Further properties of the contract *)

Section FurtherProperties.
Context {env : FHEVM}.

Ltac invert_call Hcall :=
  first
    [ apply submit_inv in Hcall
    | apply request_clustering_inv in Hcall
    | apply request_stats_inv in Hcall ];
  destruct Hcall as
    (? & Hcount & Henc & Hdec & Hstats & Hlist & Hreq & Hlog & Hctr).

Ltac invert_perform Hcall :=
  apply perform_inv in Hcall;
  destruct Hcall as
    (f & o & c & Hpending & Hfresh & Hsig & Hdecode & Hcount & Henc & Hdec
     & Hstats & Hlist & Hreq & Hlog & Hctr).

(** ** The ledger only grows *)

Lemma transact_grows (st : State) (call : Call) :
  dataPointCount st <= dataPointCount (transact st call)
  /\ clusterList st `prefix_of` clusterList (transact st call)
  /\ events st `prefix_of` events (transact st call)
  /\ (forall c, FHE_isInitialized (clusterStats st c) = true ->
        FHE_isInitialized (clusterStats (transact st call) c) = true)
  /\ (forall id, id <= dataPointCount st ->
        encryptedDataPoints (transact st call) !! id = encryptedDataPoints st !! id).
Proof.
  unfold transact. destruct (dispatch st call) as [st'|] eqn:Hcall;
    [|by repeat split; try lia].
  destruct call; simpl in Hcall.
  - invert_call Hcall. rewrite Hcount, Hlist, Hlog. unfold clusterStats.
    rewrite Hstats, Henc. repeat split; try done; try lia.
    + by apply prefix_app_r.
    + intros id Hid. by rewrite lookup_insert_ne by lia.
  - invert_call Hcall. rewrite Hcount, Hlist, Hlog. unfold clusterStats.
    rewrite Hstats, Henc. repeat split; try done; try lia.
    by apply prefix_app_r.
  - invert_perform Hcall. rewrite Hcount, Hlist, Hlog, Henc.
    unfold clusterStats at 3. rewrite Hstats. repeat split; try done; try lia.
    + destruct (FHE_isInitialized (clusterStats st c)); [done|].
      by apply prefix_app_r.
    + by apply prefix_app_r.
    + intros c' Hinit. unfold clusterStats, mapping_get in *.
      destruct (decide (c = c')) as [<-|Hne].
      * by rewrite lookup_insert_eq.
      * by rewrite lookup_insert_ne.
  - invert_call Hcall. rewrite Hcount, Hlist, Hlog. unfold clusterStats.
    by rewrite Hstats, Henc.
  - apply decrypt_stats_inv in Hcall. by subst.
Qed.

(** X1. Nothing is ever removed: along any sequence of calls, from any
    state, [dataPointCount] does not decrease, the registry and the log
    are extended at their end, and an aggregate that is initialised stays
    initialised. *)
Theorem ledger_append_only (st : State) (calls : list Call) :
  dataPointCount st <= dataPointCount (run st calls)
  /\ clusterList st `prefix_of` clusterList (run st calls)
  /\ events st `prefix_of` events (run st calls)
  /\ forall c, FHE_isInitialized (clusterStats st c) = true ->
       FHE_isInitialized (clusterStats (run st calls) c) = true.
Proof.
  revert st. induction calls as [|call calls IH]; intros st; [done|].
  simpl. fold (run (transact st call) calls).
  destruct (transact_grows st call) as (Hcount & Hlist & Hlog & Hinit & _).
  destruct (IH (transact st call)) as (Hcount' & Hlist' & Hlog' & Hinit').
  split; [lia|]. split; [by etrans|]. split; [by etrans|]. auto.
Qed.

Lemma encrypted_record_kept (st : State) (calls : list Call) (id : Z) :
  id <= dataPointCount st ->
  encryptedDataPoints (run st calls) !! id = encryptedDataPoints st !! id.
Proof.
  revert st. induction calls as [|call calls IH]; intros st Hid; [done|].
  simpl. fold (run (transact st call) calls).
  destruct (transact_grows st call) as (Hcount & _ & _ & _ & Henc).
  rewrite IH by lia. by apply Henc.
Qed.

(** X2. A submission that goes through stores the three ciphertext handles
    and the block timestamp under the new id, and no later call changes
    this record: whatever calls follow, reading the new id gives back what
    was submitted. *)
Theorem submitted_record_immutable (st st' : State) ef eo ec ts
    (calls : list Call) :
  submitEncryptedDataPoint st ef eo ec ts = Ok st' ->
  encryptedDataPoint (run st' calls) (dataPointCount st + 1) =
    {| edp_id := dataPointCount st + 1; encryptedFeatures := ef;
       encryptedDataOwner := eo; encryptedClusterId := ec; timestamp := ts |}.
Proof.
  intros Hcall. invert_call Hcall.
  unfold encryptedDataPoint, mapping_get.
  rewrite encrypted_record_kept by lia.
  by rewrite Henc, lookup_insert_eq.
Qed.

(** The encrypted records are those of the ids assigned so far, and record
    0 is never written. *)
Definition records_assigned (st : State) : Prop :=
  0 <= dataPointCount st
  /\ decryptedDataPoints st !! 0 = None
  /\ forall id,
       match encryptedDataPoints st !! id with
       | Some record => 1 <= id <= dataPointCount st /\ edp_id record = id
       | None => ~ (1 <= id <= dataPointCount st)
       end.

Lemma records_assigned_reachable (st : State) :
  reachable st -> records_assigned st.
Proof.
  revert st. apply reachable_invariant; unfold records_assigned.
  - simpl. split; [done|]. split; [done|]. intros id.
    rewrite lookup_empty. lia.
  - intros st st' ef eo ec ts _ (Hpos & Hzero & IH) Hcall. invert_call Hcall.
    rewrite Hcount, Hdec, Henc. split; [lia|].
    split; [by rewrite lookup_insert_ne by lia|].
    intros id. destruct (decide (dataPointCount st + 1 = id)) as [<-|Hne].
    + rewrite lookup_insert_eq. simpl. lia.
    + rewrite lookup_insert_ne by done. specialize (IH id).
      destruct (encryptedDataPoints st !! id); [split; [lia|tauto]|lia].
  - intros st st' id' _ IH Hcall. invert_call Hcall.
    by rewrite Hcount, Hdec, Henc.
  - intros st st' r ct pf _ (Hpos & Hzero & IH) Hcall. invert_perform Hcall.
    rewrite Hcount, Hdec, Henc. split; [done|]. split; [|done].
    by rewrite lookup_insert_ne.
  - intros st st' c' _ IH Hcall. invert_call Hcall.
    by rewrite Hcount, Hdec, Henc.
Qed.

(** X3. In every reachable state the mapping [encryptedDataPoints] holds a
    record exactly for the ids 1, ..., [dataPointCount], and the record
    stored under an id carries this id. *)
Theorem encrypted_records_domain (st : State) (id : Z) :
  reachable st ->
  (is_Some (encryptedDataPoints st !! id) <-> 1 <= id <= dataPointCount st)
  /\ (1 <= id <= dataPointCount st -> edp_id (encryptedDataPoint st id) = id).
Proof.
  intros Hst. destruct (records_assigned_reachable st Hst) as (_ & _ & Hrec).
  specialize (Hrec id). unfold encryptedDataPoint, mapping_get.
  destruct (encryptedDataPoints st !! id) as [record|]; simpl.
  - split; [|tauto]. split; [tauto|eauto].
  - split; [|tauto]. split; [by intros [? [=]]|tauto].
Qed.

(** ** From submission to the plaintext record *)

Lemma transact_submit_record (st : State) ef eo ec ts :
  dataPointCount st < MAX_UINT256 ->
  dataPointCount (transact st (SubmitEncryptedDataPoint ef eo ec ts))
    = dataPointCount st + 1
  /\ decryptedDataPoint (transact st (SubmitEncryptedDataPoint ef eo ec ts))
       (dataPointCount st + 1) = zero_DecryptedDataPoint.
Proof.
  intros Hmax. unfold transact. simpl.
  destruct (submitEncryptedDataPoint st ef eo ec ts) as [st'|r] eqn:Hcall.
  - invert_call Hcall. split; [done|].
    unfold decryptedDataPoint, mapping_get. by rewrite Hdec, lookup_insert_eq.
  - unfold submitEncryptedDataPoint in Hcall.
    by rewrite checked_incr_lt in Hcall.
Qed.

(** X4. From a reachable state: a data point is submitted, its clustering
    is requested, and the oracle's callback arrives with a valid proof and
    a cleartext that decodes to three strings.  Then, whatever calls
    follow, [getDecryptedDataPoint] returns these three strings and
    [true] for the id the submission took. *)
Theorem clustering_round_trip (st : State) ef eo ec ts
    (cleartexts proof : bytes) (f o c : string) (calls : list Call) :
  reachable st ->
  dataPointCount st < MAX_UINT256 ->
  let id := dataPointCount st + 1 in
  let st1 := transact st (SubmitEncryptedDataPoint ef eo ec ts) in
  let requestId := clustering_request_id st1 id in
  let st2 := transact st1 (RequestFederatedClustering id) in
  FHE_checkSignatures requestId cleartexts proof = true ->
  abi_decode_strings cleartexts = Some (f, o, c) ->
  let st3 := transact st2 (PerformClustering requestId cleartexts proof) in
  getDecryptedDataPoint (run st3 calls) id = (f, o, c, true).
Proof.
  intros Hst Hmax id st1 requestId st2 Hsig Hdecode st3.
  destruct (records_assigned_reachable st Hst) as (Hpos & _ & _).
  destruct (transact_submit_record st ef eo ec ts Hmax) as (Hcount1 & Hzero).
  fold st1 id in Hcount1, Hzero.
  assert (isClustered (decryptedDataPoint st1 id) = false) as Hfresh1
    by by rewrite Hzero.
  destruct (transact_request st1 id Hfresh1) as (Hdec2 & _ & _ & Hreq2 & _).
  fold st2 requestId in Hdec2, Hreq2.
  assert (requestToDataPointId st2 !! requestId = Some id) as Hpending
    by by rewrite Hreq2, lookup_insert_eq.
  assert (isClustered (decryptedDataPoint st2 id) = false) as Hfresh2.
  { unfold decryptedDataPoint. rewrite Hdec2. apply Hfresh1. }
  destruct (transact_perform st2 requestId cleartexts proof id f o c)
    as (Hdec3 & _); [done|unfold id; lia|done|done|done|].
  fold st3 in Hdec3.
  assert (decryptedDataPoint st3 id =
          {| features := f; dataOwner := o; clusterId := c; isClustered := true |})
    as Hrecord.
  { unfold decryptedDataPoint, mapping_get. by rewrite Hdec3, lookup_insert_eq. }
  assert (id <= dataPointCount st3) as Hassigned.
  { destruct (transact_grows st1 (RequestFederatedClustering id)) as (H12 & _).
    destruct (transact_grows st2 (PerformClustering requestId cleartexts proof))
      as (H23 & _).
    fold st2 in H12. fold st2 st3 in H23. lia. }
  unfold getDecryptedDataPoint.
  rewrite clustered_record_stable by (done || by rewrite Hrecord).
  by rewrite Hrecord.
Qed.

(** X5. The id 0 is the "no request" mark of [performClustering]: in every
    reachable state [requestFederatedClustering 0] goes through and
    registers its request id against 0, and every callback for this
    request, whatever its cleartext and proof, reverts with
    "Invalid request". *)
Theorem zero_id_request_never_completes (st : State) :
  reachable st ->
  exists st',
    requestFederatedClustering st 0 = Ok st'
    /\ requestToDataPointId st' !! clustering_request_id st 0 = Some 0
    /\ forall cleartexts proof,
         performClustering st' (clustering_request_id st 0) cleartexts proof
         = Reverted InvalidRequest.
Proof.
  intros Hst. destruct (records_assigned_reachable st Hst) as (_ & Hzero & _).
  assert (isClustered (decryptedDataPoint st 0) = false) as Hfresh.
  { unfold decryptedDataPoint, mapping_get. by rewrite Hzero. }
  destruct (requestFederatedClustering st 0) as [st'|r] eqn:Hcall;
    [|unfold requestFederatedClustering in Hcall; by rewrite Hfresh in Hcall].
  exists st'. split; [done|]. invert_call Hcall.
  assert (requestToDataPointId st' !! clustering_request_id st 0 = Some 0)
    as Hpending by by rewrite Hreq, lookup_insert_eq.
  split; [done|]. intros cleartexts proof.
  unfold performClustering, pendingRequest, mapping_get. by rewrite Hpending.
Qed.

(** ** Pending requests *)

Lemma pending_kept_step (st : State) (call : Call) (r : Z) :
  r ∉ registered_by st call ->
  requestToDataPointId (transact st call) !! r = requestToDataPointId st !! r.
Proof.
  unfold transact, registered_by.
  destruct call; simpl;
    match goal with
    | |- context [match ?d with Ok _ => _ | Reverted _ => _ end] =>
        destruct d eqn:Hcall
    end; try done; intros Hnew.
  - invert_call Hcall. by rewrite Hreq.
  - invert_call Hcall. rewrite Hreq. apply lookup_insert_ne.
    intros Heq. apply Hnew. rewrite Heq. apply list_elem_of_here.
  - invert_perform Hcall. by rewrite Hreq.
  - invert_call Hcall. rewrite Hreq. apply lookup_insert_ne.
    intros Heq. apply Hnew. rewrite Heq. apply list_elem_of_here.
  - apply decrypt_stats_inv in Hcall. by subst.
Qed.

Lemma pending_kept (st : State) (calls : list Call) (r : Z) :
  r ∉ registered_ids st calls ->
  requestToDataPointId (run st calls) !! r = requestToDataPointId st !! r.
Proof.
  revert st. induction calls as [|call calls IH]; intros st Hnew; [done|].
  simpl in *. fold (run (transact st call) calls).
  rewrite elem_of_app in Hnew.
  rewrite IH by tauto. apply pending_kept_step. tauto.
Qed.

(** X6. A pending request is never consumed: once a request id is in
    [requestToDataPointId] it stays there through every later call, the
    callback that answers it included; and when the oracle never assigns
    one id twice, it keeps pointing to the same target. *)
Theorem pending_request_never_removed (calls later : list Call)
    (requestId target : Z) :
  requestToDataPointId (run init calls) !! requestId = Some target ->
  is_Some (requestToDataPointId (run (run init calls) later) !! requestId)
  /\ (oracle_unique ->
      requestToDataPointId (run (run init calls) later) !! requestId
      = Some target).
Proof.
  intros Hpending. split.
  - apply registered_ids_dom. left. by rewrite Hpending.
  - intros Huniq. rewrite pending_kept; [done|].
    intros (n & h & s & Hn & Heq)%registered_ids_issued.
    assert (requestId ∈ registered_ids init calls) as Hold.
    { destruct (proj1 (registered_ids_dom init calls requestId)) as [H0|H0];
        [by rewrite Hpending| |done].
      simpl in H0. rewrite lookup_empty in H0. by destruct H0. }
    apply registered_ids_issued in Hold as (n' & h' & s' & Hn' & ->).
    apply Huniq in Heq. simpl in Hn'. lia.
Qed.

Lemma performClustering_on_clustered (st : State) (requestId : Z)
    (cleartexts proof : bytes) (id : Z) :
  requestToDataPointId st !! requestId = Some id ->
  id <> 0 ->
  isClustered (decryptedDataPoint st id) = true ->
  performClustering st requestId cleartexts proof = Reverted AlreadyClustered.
Proof.
  intros Hpending Hid Hclustered.
  unfold performClustering, pendingRequest, mapping_get.
  rewrite Hpending. simpl default.
  destruct (Z.eqb_spec id 0); [done|]. by rewrite Hclustered.
Qed.

(** X7. Nothing stops a second request on a record whose first request is
    still pending.  Both request ids then point to the record; the callback
    that arrives first (here the one of the second request) clusters the
    record, and the callback of the other request reverts with
    "Already clustered" whatever it carries. *)
Theorem second_request_first_callback_wins (st : State) (id : Z)
    (cleartexts proof : bytes) (f o c : string) :
  oracle_unique ->
  id <> 0 ->
  isClustered (decryptedDataPoint st id) = false ->
  let r1 := clustering_request_id st id in
  let st1 := transact st (RequestFederatedClustering id) in
  let r2 := clustering_request_id st1 id in
  let st2 := transact st1 (RequestFederatedClustering id) in
  FHE_checkSignatures r2 cleartexts proof = true ->
  abi_decode_strings cleartexts = Some (f, o, c) ->
  let st3 := transact st2 (PerformClustering r2 cleartexts proof) in
  r1 <> r2
  /\ requestToDataPointId st2 !! r1 = Some id
  /\ requestToDataPointId st2 !! r2 = Some id
  /\ decryptedDataPoint st3 id =
       {| features := f; dataOwner := o; clusterId := c; isClustered := true |}
  /\ forall cleartexts' proof',
       performClustering st3 r1 cleartexts' proof' = Reverted AlreadyClustered.
Proof.
  intros Huniq Hid Hfresh r1 st1 r2 st2 Hsig Hdecode st3.
  destruct (transact_request st id Hfresh) as (Hdec1 & _ & _ & Hreq1 & Hctr1).
  fold st1 r1 in Hdec1, Hreq1, Hctr1.
  assert (isClustered (decryptedDataPoint st1 id) = false) as Hfresh1.
  { unfold decryptedDataPoint. by rewrite Hdec1. }
  destruct (transact_request st1 id Hfresh1) as (Hdec2 & _ & _ & Hreq2 & _).
  fold st2 r2 in Hdec2, Hreq2.
  assert (r1 <> r2) as Hne.
  { unfold r1, r2, clustering_request_id. rewrite Hctr1.
    intros Heq%Huniq. lia. }
  assert (requestToDataPointId st2 !! r1 = Some id) as Hp1.
  { rewrite Hreq2, lookup_insert_ne by (apply not_eq_sym; exact Hne).
    by rewrite Hreq1, lookup_insert_eq. }
  assert (requestToDataPointId st2 !! r2 = Some id) as Hp2
    by by rewrite Hreq2, lookup_insert_eq.
  assert (isClustered (decryptedDataPoint st2 id) = false) as Hfresh2.
  { unfold decryptedDataPoint. by rewrite Hdec2. }
  destruct (transact_perform st2 r2 cleartexts proof id f o c
              Hp2 Hid Hfresh2 Hsig Hdecode) as (Hdec3 & _ & _ & Hreq3).
  fold st3 in Hdec3, Hreq3.
  assert (decryptedDataPoint st3 id =
          {| features := f; dataOwner := o; clusterId := c; isClustered := true |})
    as Hrecord.
  { unfold decryptedDataPoint, mapping_get. by rewrite Hdec3, lookup_insert_eq. }
  repeat split; try done.
  intros cleartexts' proof'.
  apply (performClustering_on_clustered _ _ _ _ id); [|done|by rewrite Hrecord].
  by rewrite Hreq3.
Qed.

(** ** The statistics path *)

Lemma getClusterFromHash_loop_spec (clusters : list string) (hash : Z) :
  match getClusterFromHash_loop clusters hash with
  | Ok c =>
      exists before after,
        clusters = before ++ c :: after
        /\ bytes32ToUint (keccak256 c) = hash
        /\ forall c', c' ∈ before -> bytes32ToUint (keccak256 c') <> hash
  | Reverted r =>
      r = ClusterNotFound
      /\ forall c, c ∈ clusters -> bytes32ToUint (keccak256 c) <> hash
  end.
Proof.
  induction clusters as [|c0 clusters IH]; simpl.
  - split; [done|]. by intros c ?%elem_of_nil.
  - destruct (Z.eqb_spec (bytes32ToUint (keccak256 c0)) hash) as [Heq|Hne].
    + exists [], clusters. split; [done|]. split; [done|].
      by intros c' ?%elem_of_nil.
    + destruct (getClusterFromHash_loop clusters hash) as [c|r].
      * destruct IH as (before & after & -> & Hhash & Hfirst).
        exists (c0 :: before), after. split; [done|]. split; [done|].
        intros c' [->|Hin]%elem_of_cons; auto.
      * destruct IH as [-> Hnone]. split; [done|].
        intros c [->|Hin]%elem_of_cons; auto.
Qed.

(** X8. [getClusterFromHash] returns the first cluster of the registry
    whose hash is the one looked for, and reverts with "Cluster not found"
    exactly when the registry holds none.  When no two registered clusters
    have the same hash, looking up the hash of a registered cluster gives
    this cluster back. *)
Theorem getClusterFromHash_spec (st : State) (hash : Z) :
  match getClusterFromHash st hash with
  | Ok c =>
      exists before after,
        clusterList st = before ++ c :: after
        /\ bytes32ToUint (keccak256 c) = hash
        /\ forall c', c' ∈ before -> bytes32ToUint (keccak256 c') <> hash
  | Reverted r =>
      r = ClusterNotFound
      /\ forall c, c ∈ clusterList st -> bytes32ToUint (keccak256 c) <> hash
  end
  /\ ((forall c1 c2, c1 ∈ clusterList st -> c2 ∈ clusterList st ->
         keccak256 c1 = keccak256 c2 -> c1 = c2) ->
      forall c, c ∈ clusterList st ->
        getClusterFromHash st (bytes32ToUint (keccak256 c)) = Ok c).
Proof.
  split; [apply getClusterFromHash_loop_spec|].
  intros Hinj c Hin. unfold getClusterFromHash.
  pose proof (getClusterFromHash_loop_spec (clusterList st)
                (bytes32ToUint (keccak256 c))) as Hspec.
  destruct (getClusterFromHash_loop _ _) as [c'|r].
  - destruct Hspec as (before & after & Hlist & Hhash & _).
    f_equal. apply Hinj; [|done|done].
    rewrite Hlist. apply elem_of_app. right. apply list_elem_of_here.
  - destruct Hspec as [_ Hnone]. by destruct (Hnone c Hin).
Qed.

(** X9. In every reachable state [requestClusterStatsDecryption] goes
    through exactly for the clusters of the registry: it then registers the
    hash of the cluster name under the request id it receives and changes
    nothing else in the storage and the log; for any other name it reverts
    with "Cluster not found". *)
Theorem requestClusterStatsDecryption_spec (st : State) (c : string) :
  reachable st ->
  (c ∈ clusterList st ->
     exists st',
       requestClusterStatsDecryption st c = Ok st'
       /\ requestToDataPointId st' =
            <[stats_request_id st c := keccak256 c]> (requestToDataPointId st)
       /\ dataPointCount st' = dataPointCount st
       /\ encryptedDataPoints st' = encryptedDataPoints st
       /\ decryptedDataPoints st' = decryptedDataPoints st
       /\ encryptedClusterStats st' = encryptedClusterStats st
       /\ clusterList st' = clusterList st
       /\ events st' = events st)
  /\ (c ∉ clusterList st ->
      requestClusterStatsDecryption st c = Reverted ClusterNotFound).
Proof.
  intros Hst. destruct (registry_consistent_reachable st Hst) as [_ Hreg].
  split.
  - intros Hinit%Hreg.
    destruct (requestClusterStatsDecryption st c) as [st'|r] eqn:Hcall;
      [|unfold requestClusterStatsDecryption in Hcall;
        by rewrite Hinit in Hcall].
    exists st'. split; [done|]. invert_call Hcall. by repeat split.
  - intros Hnew. unfold requestClusterStatsDecryption.
    destruct (FHE_isInitialized (clusterStats st c)) eqn:Hinit; [|done].
    by apply Hreg in Hinit.
Qed.

(** X10. A callback of [decryptClusterStats] with a request id that no call
    registered reverts with "Cluster not found", before the proof is looked
    at, and leaves the state as it was, unless the name of a registered
    cluster hashes to 0. *)
Theorem decryptClusterStats_unknown_request (calls : list Call)
    (requestId : Z) (cleartexts proof : bytes) :
  requestId ∉ registered_ids init calls ->
  (forall c, c ∈ clusterList (run init calls) -> keccak256 c <> 0) ->
  decryptClusterStats (run init calls) requestId cleartexts proof
    = Reverted ClusterNotFound
  /\ transact (run init calls) (DecryptClusterStats requestId cleartexts proof)
     = run init calls.
Proof.
  intros Hnew Hnonzero.
  assert (requestToDataPointId (run init calls) !! requestId = None) as Hnone.
  { rewrite pending_kept by done. apply lookup_empty. }
  assert (decryptClusterStats (run init calls) requestId cleartexts proof
          = Reverted ClusterNotFound) as Hrev.
  { unfold decryptClusterStats, getClusterFromHash, pendingRequest, mapping_get.
    rewrite Hnone. simpl default.
    pose proof (getClusterFromHash_loop_spec (clusterList (run init calls)) 0)
      as Hspec.
    destruct (getClusterFromHash_loop _ _) as [c|r].
    - destruct Hspec as (before & after & Hlist & Hhash & _).
      destruct (Hnonzero c); [|done].
      rewrite Hlist. apply elem_of_app. right. apply list_elem_of_here.
    - by destruct Hspec as [-> _]. }
  split; [done|]. by apply (transact_reverted _ _ ClusterNotFound).
Qed.

(** X11. The two callbacks share [requestToDataPointId]: a request id
    registered by [requestClusterStatsDecryption] is taken by
    [performClustering] as a request on the record whose number is the hash
    of the cluster name.  With a proof that the oracle accepts and a
    cleartext that decodes to three strings, the callback goes through and
    writes this record. *)
Theorem stats_request_taken_by_performClustering (st st1 : State) (c : string)
    (cleartexts proof : bytes) (f o c' : string) :
  requestClusterStatsDecryption st c = Ok st1 ->
  keccak256 c <> 0 ->
  isClustered (decryptedDataPoint st (keccak256 c)) = false ->
  FHE_checkSignatures (stats_request_id st c) cleartexts proof = true ->
  abi_decode_strings cleartexts = Some (f, o, c') ->
  exists st2,
    performClustering st1 (stats_request_id st c) cleartexts proof = Ok st2
    /\ decryptedDataPoint st2 (keccak256 c) =
         {| features := f; dataOwner := o; clusterId := c';
            isClustered := true |}
    /\ events st2 = events st ++ [DataPointClustered (keccak256 c)].
Proof.
  intros Hcall Hhash Hfresh Hsig Hdecode. invert_call Hcall.
  assert (requestToDataPointId st1 !! stats_request_id st c = Some (keccak256 c))
    as Hpending by by rewrite Hreq, lookup_insert_eq.
  assert (pendingRequest st1 (stats_request_id st c) = keccak256 c) as Hpend.
  { unfold pendingRequest, mapping_get. by rewrite Hpending. }
  assert (isClustered (decryptedDataPoint st1 (keccak256 c)) = false) as Hfresh1.
  { unfold decryptedDataPoint. by rewrite Hdec. }
  destruct (performClustering_succeeds st1 (stats_request_id st c)
              cleartexts proof f o c') as [st2 Hperform];
    rewrite ?Hpend; try done.
  exists st2. split; [done|].
  apply perform_inv in Hperform as
    (f2 & o2 & c2 & _ & _ & _ & Hdecode2 & _ & _ & Hdec2 & _ & _ & _ & Hlog2 & _).
  rewrite Hpend in *. rewrite Hdecode in Hdecode2.
  injection Hdecode2 as <- <- <-. split.
  - unfold decryptedDataPoint, mapping_get. by rewrite Hdec2, lookup_insert_eq.
  - by rewrite Hlog2, Hlog.
Qed.

(** ** The aggregates *)

Lemma clustered_events_app (log1 log2 : list Event) :
  clustered_events (log1 ++ log2) = clustered_events log1 + clustered_events log2.
Proof.
  induction log1 as [|[] log1 IH]; simpl; rewrite ?IH; lia.
Qed.

Lemma clustered_events_nonneg (log : list Event) : 0 <= clustered_events log.
Proof. induction log as [|[] log IH]; simpl; lia. Qed.

Lemma aggregate_sum_app (st : State) (l1 l2 : list string) :
  aggregate_sum st (l1 ++ l2) = aggregate_sum st l1 + aggregate_sum st l2.
Proof. induction l1 as [|c l1 IH]; simpl; rewrite ?IH; lia. Qed.

Lemma aggregate_sum_frame (st st' : State) (l : list string) :
  (forall c, c ∈ l -> clusterStats st' c = clusterStats st c) ->
  aggregate_sum st' l = aggregate_sum st l.
Proof.
  induction l as [|c l IH]; intros Hsame; simpl; [done|].
  rewrite Hsame by apply list_elem_of_here.
  rewrite IH; [done|]. intros c' Hin. apply Hsame. by apply list_elem_of_further.
Qed.

Lemma aggregate_sum_update (st st' : State) (l : list string) (c : string) :
  NoDup l -> c ∈ l ->
  (forall c', c' <> c -> clusterStats st' c' = clusterStats st c') ->
  aggregate_sum st' l =
  aggregate_sum st l
  + (FHE_decrypt (clusterStats st' c) - FHE_decrypt (clusterStats st c)).
Proof.
  intros Hnodup Hin Hother.
  induction l as [|c0 l IH]; [by apply elem_of_nil in Hin|].
  apply NoDup_cons in Hnodup as [Hc0 Hnodup]. simpl.
  destruct (decide (c0 = c)) as [->|Hne].
  - rewrite (aggregate_sum_frame st st' l); [lia|].
    intros c' Hc'. apply Hother. intros ->. done.
  - rewrite (Hother c0 Hne).
    apply elem_of_cons in Hin as [->|Hin]; [done|].
    rewrite IH by done. lia.
Qed.

Lemma aggregate_sum_bound (st : State) (l : list string) (c : string) :
  (forall c', c' ∈ l -> 0 <= FHE_decrypt (clusterStats st c')) ->
  c ∈ l ->
  FHE_decrypt (clusterStats st c) <= aggregate_sum st l.
Proof.
  intros Hpos Hin. induction l as [|c0 l IH]; [by apply elem_of_nil in Hin|].
  simpl.
  assert (0 <= aggregate_sum st l) as Hsum.
  { clear IH Hin. induction l as [|c1 l IH]; simpl; [done|].
    assert (0 <= FHE_decrypt (clusterStats st c1))
      by (apply Hpos; apply list_elem_of_further, list_elem_of_here).
    assert (0 <= aggregate_sum st l); [|lia].
    apply IH. intros c' [->|Hc']%elem_of_cons; apply Hpos.
    - apply list_elem_of_here.
    - by do 2 apply list_elem_of_further. }
  assert (0 <= FHE_decrypt (clusterStats st c0))
    by (apply Hpos, list_elem_of_here).
  apply elem_of_cons in Hin as [->|Hin]; [lia|].
  assert (FHE_decrypt (clusterStats st c) <= aggregate_sum st l); [|lia].
  apply IH; [|done]. intros c' Hc'. apply Hpos. by apply list_elem_of_further.
Qed.

(** Every aggregate is a 32-bit unsigned integer. *)
Definition aggregates_in_range (st : State) : Prop :=
  forall c, 0 <= FHE_decrypt (clusterStats st c) < UINT32_MODULUS.

Lemma aggregates_in_range_reachable (st : State) :
  reachable st -> aggregates_in_range st.
Proof.
  revert st. apply reachable_invariant; unfold aggregates_in_range, clusterStats.
  - intros c. unfold mapping_get. simpl. rewrite lookup_empty. simpl.
    unfold UINT32_MODULUS. lia.
  - intros st st' ef eo ec ts _ IH Hcall c. invert_call Hcall.
    rewrite Hstats. apply IH.
  - intros st st' id _ IH Hcall c. invert_call Hcall. rewrite Hstats. apply IH.
  - intros st st' r ct pf _ IH Hcall c'. invert_perform Hcall.
    rewrite Hstats. unfold mapping_get.
    destruct (decide (c = c')) as [<-|Hne].
    + rewrite lookup_insert_eq. simpl.
      apply Z.mod_pos_bound. unfold UINT32_MODULUS. lia.
    + rewrite lookup_insert_ne by done. apply IH.
  - intros st st' c' _ IH Hcall c. invert_call Hcall. rewrite Hstats. apply IH.
Qed.

(** As long as fewer than [2^32] data points were clustered, the aggregates
    count them. *)
Definition aggregates_counted (st : State) : Prop :=
  clustered_events (events st) < UINT32_MODULUS ->
  aggregate_total st = clustered_events (events st)
  /\ forall c, c ∈ clusterList st -> 1 <= FHE_decrypt (clusterStats st c).

Lemma aggregates_counted_reachable (st : State) :
  reachable st -> aggregates_counted st.
Proof.
  revert st. apply reachable_invariant; unfold aggregates_counted, aggregate_total.
  - intros _. split; [done|]. by intros c ?%elem_of_nil.
  - intros st st' ef eo ec ts _ IH Hcall. invert_call Hcall.
    rewrite Hlist, Hlog, clustered_events_app. simpl. rewrite Z.add_0_r.
    intros Hlt. destruct (IH Hlt) as [Hsum Hpos].
    unfold clusterStats in *. rewrite Hstats.
    split; [|done]. rewrite <- Hsum. apply aggregate_sum_frame.
    intros c _. unfold clusterStats. by rewrite Hstats.
  - intros st st' id _ IH Hcall. invert_call Hcall.
    rewrite Hlist, Hlog, clustered_events_app. simpl. rewrite Z.add_0_r.
    intros Hlt. destruct (IH Hlt) as [Hsum Hpos].
    unfold clusterStats in *. rewrite Hstats.
    split; [|done]. rewrite <- Hsum. apply aggregate_sum_frame.
    intros c _. unfold clusterStats. by rewrite Hstats.
  - intros st st' r ct pf Hst IH Hcall. invert_perform Hcall.
    rewrite Hlog, clustered_events_app. simpl. intros Hlt.
    pose proof (clustered_events_nonneg (events st)) as Hnonneg.
    destruct IH as [Hsum Hpos]; [lia|].
    destruct (registry_consistent_reachable st Hst) as [Hnodup Hreg].
    assert (forall c', c' <> c -> clusterStats st' c' = clusterStats st c')
      as Hother.
    { intros c' Hne. unfold clusterStats, mapping_get.
      by rewrite Hstats, lookup_insert_ne. }
    assert (FHE_decrypt (clusterStats st' c) =
            (FHE_decrypt (clusterStats st c) + 1) mod UINT32_MODULUS) as Hnew.
    { unfold clusterStats at 1. unfold mapping_get.
      rewrite Hstats, lookup_insert_eq. simpl default.
      apply FHE_add_one_decrypt. }
    rewrite Hlist.
    destruct (FHE_isInitialized (clusterStats st c)) eqn:Hinit.
    + (* one more member of a registered cluster *)
      apply Hreg in Hinit as Hin.
      assert (FHE_decrypt (clusterStats st c) <= aggregate_sum st (clusterList st))
        as Hle.
      { apply aggregate_sum_bound; [|done].
        intros c' Hc'. specialize (Hpos c' Hc'). lia. }
      specialize (Hpos c Hin) as Hc.
      rewrite Z.mod_small in Hnew by lia.
      split.
      * rewrite (aggregate_sum_update st st' _ c) by done.
        rewrite Hnew, Hsum. lia.
      * intros c' Hc'. destruct (decide (c' = c)) as [->|Hne].
        -- rewrite Hnew. lia.
        -- rewrite Hother by done. by apply Hpos.
    + (* the first member of a new cluster *)
      assert (c ∉ clusterList st) as Hnotin.
      { intros Hin%Hreg. congruence. }
      assert (clusterStats st c = Uninit) as Huninit
        by by destruct (clusterStats st c).
      rewrite Huninit in Hnew.
      change ((FHE_decrypt Uninit + 1) mod UINT32_MODULUS) with 1 in Hnew.
      split.
      * rewrite aggregate_sum_app. simpl. rewrite Hnew.
        rewrite (aggregate_sum_frame st st').
        -- rewrite Hsum. lia.
        -- intros c' Hc'. apply Hother. intros ->. done.
      * intros c' [Hc'|Hc']%elem_of_app.
        -- rewrite Hother by (intros ->; done). by apply Hpos.
        -- apply list_elem_of_singleton in Hc' as ->. rewrite Hnew. lia.
  - intros st st' c _ IH Hcall. invert_call Hcall.
    rewrite Hlist, Hlog. intros Hlt. destruct (IH Hlt) as [Hsum Hpos].
    unfold clusterStats in *. rewrite Hstats.
    split; [|done]. rewrite <- Hsum. apply aggregate_sum_frame.
    intros c0 _. unfold clusterStats. by rewrite Hstats.
Qed.

(** X12. In every reachable state in which fewer than [2^32] callbacks of
    [performClustering] went through (one [DataPointClustered] event
    each), the aggregates of the registered clusters add up to the number
    of these callbacks, and every registered cluster counts at least one
    member. *)
Theorem aggregates_count_clustered_points (st : State) :
  reachable st ->
  clustered_events (events st) < UINT32_MODULUS ->
  aggregate_total st = clustered_events (events st)
  /\ forall c, c ∈ clusterList st ->
       1 <= FHE_decrypt (clusterStats st c) <= clustered_events (events st).
Proof.
  intros Hst Hlt.
  destruct (aggregates_counted_reachable st Hst Hlt) as [Hsum Hpos].
  split; [done|]. intros c Hin. split; [by apply Hpos|].
  rewrite <- Hsum. apply aggregate_sum_bound; [|done].
  intros c' Hc'. specialize (Hpos c' Hc'). lia.
Qed.

(** X13. In every reachable state [getEncryptedClusterStats] returns an
    initialised handle exactly for the clusters of the registry, and what
    it returns decrypts to a 32-bit unsigned integer (0 for a cluster that
    is not registered). *)
Theorem getEncryptedClusterStats_spec (st : State) (c : string) :
  reachable st ->
  (FHE_isInitialized (getEncryptedClusterStats st c) = true
   <-> c ∈ clusterList st)
  /\ 0 <= FHE_decrypt (getEncryptedClusterStats st c) < UINT32_MODULUS
  /\ (c ∉ clusterList st -> getEncryptedClusterStats st c = Uninit).
Proof.
  intros Hst. unfold getEncryptedClusterStats.
  destruct (registry_consistent_reachable st Hst) as [_ Hreg].
  split; [by rewrite Hreg|]. split; [by apply aggregates_in_range_reachable|].
  intros Hnew. destruct (clusterStats st c) eqn:Hstats; [done|].
  destruct Hnew. apply Hreg. by rewrite Hstats.
Qed.

(** ** What the read side returns *)

(** X14. As long as [dataPointCount] is below the largest [uint256],
    [calculateClusterCentroids] returns the empty string exactly when no
    record among 1, ..., [dataPointCount] is a clustered member of the
    cluster, it reverts with the out-of-bounds panic otherwise, and it
    returns no other string. *)
Theorem calculateClusterCentroids_spec (st : State) (c : string) :
  dataPointCount st < MAX_UINT256 ->
  (calculateClusterCentroids st c = Ok "" <->
     forall i, 1 <= i <= dataPointCount st -> is_member st c i = false)
  /\ (calculateClusterCentroids st c = Reverted (Panic PANIC_OUT_OF_BOUNDS) <->
      exists i, 1 <= i <= dataPointCount st /\ is_member st c i = true)
  /\ forall s, calculateClusterCentroids st c = Ok s -> s = "".
Proof.
  intros Hmax. split; [|split].
  - split.
    + intros Hok. by apply (calculateClusterCentroids_result st c ""); [lia|].
    + by apply calculateClusterCentroids_no_member.
  - split.
    + intros Hpanic.
      destruct (decide (Exists (fun i => is_member st c i = true)
                          (seqZ 1 (dataPointCount st)))) as [Hex|Hnone].
      * apply Exists_exists in Hex as (i & Hi%elem_of_seqZ & Hmem).
        exists i. split; [lia|done].
      * rewrite calculateClusterCentroids_no_member in Hpanic; [done|done|].
        intros i Hi. destruct (is_member st c i) eqn:Hmem; [|done].
        destruct Hnone. apply Exists_exists. exists i.
        split; [apply elem_of_seqZ; lia|done].
    + intros (i & Hi & Hmem).
      by apply (calculateClusterCentroids_member st c i); [lia| |].
  - intros s Hok. by apply (calculateClusterCentroids_result st c s); [lia|].
Qed.

Lemma findSimilarClusters_count_ok (st : State) (targetFeatures : string)
    (similarityThreshold : Z) (clusters : list string) :
  forall count result,
    findSimilarClusters_count st targetFeatures similarityThreshold clusters count
    = Ok result ->
    forall c, c ∈ clusters -> exists s, calculateClusterCentroids st c = Ok s.
Proof.
  induction clusters as [|c0 clusters IH]; intros count result Hok c Hin;
    [by apply elem_of_nil in Hin|].
  simpl in Hok.
  destruct (calculateClusterCentroids st c0) as [s0|] eqn:Hcentroid; [|done].
  simpl in Hok.
  apply elem_of_cons in Hin as [->|Hin]; [eauto|].
  destruct (similarityThreshold <=? calculateSimilarity targetFeatures s0).
  - destruct (checked_incr count) as [count'|]; [|done]. simpl in Hok.
    by apply (IH _ _ Hok).
  - by apply (IH _ _ Hok).
Qed.

Lemma filter_constant (Q : Prop) `{!Decision Q} (l : list string) :
  filter (fun _ : string => Q) l = if decide Q then l else [].
Proof.
  induction l as [|c l IH]; [by destruct (decide Q)|].
  destruct (decide Q) as [HQ|HQ].
  - by rewrite filter_cons_True, IH.
  - by rewrite filter_cons_False, IH.
Qed.

(** X15. Since every centroid that is computed is the empty string,
    [findSimilarClusters] compares the target with the empty string only:
    when it returns, it returns the whole registry if the score of the
    target against the empty string reaches the threshold and the empty
    list otherwise, and no registered cluster has a clustered member among
    the records 1, ..., [dataPointCount]; and it does return whenever no
    registered cluster has such a member. *)
Theorem findSimilarClusters_all_or_nothing (st : State)
    (targetFeatures : string) (similarityThreshold : Z) :
  dataPointCount st < MAX_UINT256 ->
  Z.of_nat (length (clusterList st)) <= MAX_UINT256 ->
  (forall similarClusters,
     findSimilarClusters st targetFeatures similarityThreshold
     = Ok similarClusters ->
     similarClusters =
       (if decide (similarityThreshold <= calculateSimilarity targetFeatures "")
        then clusterList st else [])
     /\ forall c i, c ∈ clusterList st -> 1 <= i <= dataPointCount st ->
          is_member st c i = false)
  /\ ((forall c i, c ∈ clusterList st -> 1 <= i <= dataPointCount st ->
         is_member st c i = false) ->
      findSimilarClusters st targetFeatures similarityThreshold
      = Ok (if decide (similarityThreshold <= calculateSimilarity targetFeatures "")
            then clusterList st else [])).
Proof.
  intros Hmax Hlen.
  assert ((forall c i, c ∈ clusterList st -> 1 <= i <= dataPointCount st ->
             is_member st c i = false) ->
          findSimilarClusters st targetFeatures similarityThreshold
          = Ok (if decide (similarityThreshold
                           <= calculateSimilarity targetFeatures "")
                then clusterList st else [])) as Hreturns.
  { intros Hnone.
    rewrite (findSimilarClusters_filter st _ _ (fun _ => "")); [|..|done].
    - unfold similarClusters_spec. by rewrite filter_constant.
    - intros c Hin. apply calculateClusterCentroids_no_member; [done|].
      intros i Hi. by apply Hnone. }
  split; [|done].
  intros similarClusters Hok.
  assert (forall c i, c ∈ clusterList st -> 1 <= i <= dataPointCount st ->
            is_member st c i = false) as Hnone.
  { intros c i Hin Hi. unfold findSimilarClusters in Hok.
    destruct (findSimilarClusters_count st targetFeatures similarityThreshold
                (clusterList st) 0) as [count|] eqn:Hcount; [|done].
    destruct (findSimilarClusters_count_ok _ _ _ _ _ _ Hcount c Hin)
      as [s Hcentroid].
    by apply (calculateClusterCentroids_result st c s); [lia| |]. }
  split; [|done]. rewrite (Hreturns Hnone) in Hok. congruence.
Qed.

End FurtherProperties.

(** * The further properties on concrete inputs *)

(** X2 on the test instance: the record of the first submission, read back
    after three more calls. *)
Lemma submitted_record_immutable_witness :
  encryptedDataPoint
    (run (env := test_FHEVM)
       (transact (env := test_FHEVM) init
          (SubmitEncryptedDataPoint (Enc 7) (Enc 8) (Enc 9) 1000))
       [RequestFederatedClustering 1;
        PerformClustering 0 cleartext_A valid_proof;
        SubmitEncryptedDataPoint (Enc 1) (Enc 2) (Enc 3) 2000])
    (dataPointCount init + 1)
  = {| edp_id := dataPointCount init + 1; encryptedFeatures := Enc 7;
       encryptedDataOwner := Enc 8; encryptedClusterId := Enc 9;
       timestamp := 1000 |}.
Proof.
  exact (submitted_record_immutable (env := test_FHEVM) init _
           (Enc 7) (Enc 8) (Enc 9) 1000
           [RequestFederatedClustering 1;
            PerformClustering 0 cleartext_A valid_proof;
            SubmitEncryptedDataPoint (Enc 1) (Enc 2) (Enc 3) 2000]
           eq_refl).
Defined.

(** X3 on the test instance. *)
Lemma encrypted_records_domain_witness :
  (is_Some (encryptedDataPoints one_clustered !! 1)
   <-> 1 <= 1 <= dataPointCount one_clustered)
  /\ (1 <= 1 <= dataPointCount one_clustered ->
      edp_id (encryptedDataPoint one_clustered 1) = 1).
Proof.
  exact (encrypted_records_domain (env := test_FHEVM) one_clustered 1
           one_clustered_reachable).
Defined.

(** X4 on the test instance: the first data point of a fresh contract,
    read after a second submission and a second request. *)
Lemma clustering_round_trip_witness :
  let id := dataPointCount init + 1 in
  let st1 :=
    transact (env := test_FHEVM) init
      (SubmitEncryptedDataPoint (Enc 7) (Enc 8) (Enc 9) 1000) in
  let requestId := clustering_request_id (env := test_FHEVM) st1 id in
  let st2 := transact (env := test_FHEVM) st1 (RequestFederatedClustering id) in
  let st3 :=
    transact (env := test_FHEVM) st2
      (PerformClustering requestId cleartext_A valid_proof) in
  getDecryptedDataPoint
    (run (env := test_FHEVM) st3
       [SubmitEncryptedDataPoint (Enc 1) (Enc 2) (Enc 3) 2000;
        RequestFederatedClustering 1])
    id
  = ("f", "o", "A", true).
Proof.
  assert (dataPointCount init < MAX_UINT256) as Hmax by reflexivity.
  exact (clustering_round_trip (env := test_FHEVM) init
           (Enc 7) (Enc 8) (Enc 9) 1000 cleartext_A valid_proof "f" "o" "A"
           [SubmitEncryptedDataPoint (Enc 1) (Enc 2) (Enc 3) 2000;
            RequestFederatedClustering 1]
           (reachable_init (env := test_FHEVM)) Hmax eq_refl eq_refl).
Defined.

(** X5 on the test instance. *)
Lemma zero_id_request_never_completes_witness :
  exists st',
    requestFederatedClustering (env := test_FHEVM) one_clustered 0 = Ok st'
    /\ requestToDataPointId st'
         !! clustering_request_id (env := test_FHEVM) one_clustered 0 = Some 0
    /\ forall cleartexts proof,
         performClustering (env := test_FHEVM) st'
           (clustering_request_id (env := test_FHEVM) one_clustered 0)
           cleartexts proof
         = Reverted InvalidRequest.
Proof.
  exact (zero_id_request_never_completes (env := test_FHEVM) one_clustered
           one_clustered_reachable).
Defined.

(** X6 on the test instance: request 0 is still registered after its
    callback and two more calls. *)
Lemma pending_request_never_removed_witness :
  is_Some
    (requestToDataPointId
       (run (env := test_FHEVM) (run (env := test_FHEVM) init one_clustered_calls)
          [RequestFederatedClustering 2;
           PerformClustering 0 cleartext_B valid_proof]) !! 0)
  /\ requestToDataPointId
       (run (env := test_FHEVM) (run (env := test_FHEVM) init one_clustered_calls)
          [RequestFederatedClustering 2;
           PerformClustering 0 cleartext_B valid_proof]) !! 0
     = Some 1.
Proof.
  assert (requestToDataPointId
            (run (env := test_FHEVM) init one_clustered_calls) !! 0 = Some 1)
    as Hpending by (vm_compute; reflexivity).
  destruct (pending_request_never_removed (env := test_FHEVM)
              one_clustered_calls
              [RequestFederatedClustering 2;
               PerformClustering 0 cleartext_B valid_proof] 0 1 Hpending)
    as [Hkept Hsame].
  split; [exact Hkept|exact (Hsame test_oracle_unique)].
Defined.

(** X7 on the test instance: a second and a third request on record 1. *)
Lemma second_request_first_callback_wins_witness :
  let r1 := clustering_request_id (env := test_FHEVM) one_requested 1 in
  let st1 :=
    transact (env := test_FHEVM) one_requested (RequestFederatedClustering 1) in
  let r2 := clustering_request_id (env := test_FHEVM) st1 1 in
  let st2 := transact (env := test_FHEVM) st1 (RequestFederatedClustering 1) in
  let st3 :=
    transact (env := test_FHEVM) st2
      (PerformClustering r2 cleartext_A valid_proof) in
  r1 <> r2
  /\ requestToDataPointId st2 !! r1 = Some 1
  /\ requestToDataPointId st2 !! r2 = Some 1
  /\ decryptedDataPoint st3 1 =
       {| features := "f"; dataOwner := "o"; clusterId := "A";
          isClustered := true |}
  /\ forall cleartexts' proof',
       performClustering (env := test_FHEVM) st3 r1 cleartexts' proof'
       = Reverted AlreadyClustered.
Proof.
  assert (1 <> 0) as Hid by discriminate.
  assert (isClustered (decryptedDataPoint one_requested 1) = false) as Hfresh
    by (vm_compute; reflexivity).
  exact (second_request_first_callback_wins (env := test_FHEVM) one_requested 1
           cleartext_A valid_proof "f" "o" "A"
           test_oracle_unique Hid Hfresh eq_refl eq_refl).
Defined.

(** X9 on the test instance: "A" is registered, "B" is not. *)
Lemma requestClusterStatsDecryption_spec_witness :
  (exists st',
     requestClusterStatsDecryption (env := test_FHEVM) one_clustered "A" = Ok st'
     /\ requestToDataPointId st' =
          <[stats_request_id (env := test_FHEVM) one_clustered "A"
              := keccak256 (FHEVM := test_FHEVM) "A"]>
            (requestToDataPointId one_clustered)
     /\ dataPointCount st' = dataPointCount one_clustered
     /\ encryptedDataPoints st' = encryptedDataPoints one_clustered
     /\ decryptedDataPoints st' = decryptedDataPoints one_clustered
     /\ encryptedClusterStats st' = encryptedClusterStats one_clustered
     /\ clusterList st' = clusterList one_clustered
     /\ events st' = events one_clustered)
  /\ requestClusterStatsDecryption (env := test_FHEVM) one_clustered "B"
     = Reverted ClusterNotFound.
Proof.
  assert (clusterList one_clustered = ["A"]) as Hlist
    by (vm_compute; reflexivity).
  split.
  - apply (proj1 (requestClusterStatsDecryption_spec (env := test_FHEVM)
                    one_clustered "A" one_clustered_reachable)).
    rewrite Hlist. apply list_elem_of_here.
  - apply (proj2 (requestClusterStatsDecryption_spec (env := test_FHEVM)
                    one_clustered "B" one_clustered_reachable)).
    rewrite Hlist. intros Hin. apply list_elem_of_singleton in Hin.
    discriminate Hin.
Defined.

(** X10 on the test instance: request 7 was never registered. *)
Lemma decryptClusterStats_unknown_request_witness :
  decryptClusterStats (env := test_FHEVM) one_clustered 7 [Byte.x01] valid_proof
    = Reverted ClusterNotFound
  /\ transact (env := test_FHEVM) one_clustered
       (DecryptClusterStats 7 [Byte.x01] valid_proof) = one_clustered.
Proof.
  assert (7 ∉ registered_ids (env := test_FHEVM) init one_clustered_calls)
    as Hnew.
  { intros Hin%list_elem_of_In. vm_compute in Hin.
    destruct Hin as [Hin|[]]. discriminate Hin. }
  assert (forall c, c ∈ clusterList one_clustered ->
            keccak256 (FHEVM := test_FHEVM) c <> 0) as Hnonzero
    by (intros c _; discriminate).
  exact (decryptClusterStats_unknown_request (env := test_FHEVM)
           one_clustered_calls 7 [Byte.x01] valid_proof Hnew Hnonzero).
Defined.

(** X11 on the test instance: the request for the aggregate of "A",
    answered through [performClustering]. *)
Lemma stats_request_taken_by_performClustering_witness :
  exists st2,
    performClustering (env := test_FHEVM)
      (transact (env := test_FHEVM) one_clustered
         (RequestClusterStatsDecryption "A"))
      (stats_request_id (env := test_FHEVM) one_clustered "A")
      cleartext_B valid_proof = Ok st2
    /\ decryptedDataPoint st2 (keccak256 (FHEVM := test_FHEVM) "A") =
         {| features := "g"; dataOwner := "o"; clusterId := "B";
            isClustered := true |}
    /\ events st2 =
         events one_clustered
         ++ [DataPointClustered (keccak256 (FHEVM := test_FHEVM) "A")].
Proof.
  assert (requestClusterStatsDecryption (env := test_FHEVM) one_clustered "A"
          = Ok (transact (env := test_FHEVM) one_clustered
                  (RequestClusterStatsDecryption "A"))) as Hrequest.
  { unfold transact. simpl dispatch.
    destruct (requestClusterStatsDecryption one_clustered "A") eqn:Hcall;
      [reflexivity|].
    exfalso. vm_compute in Hcall. discriminate Hcall. }
  assert (keccak256 (FHEVM := test_FHEVM) "A" <> 0) as Hhash by discriminate.
  assert (isClustered
            (decryptedDataPoint one_clustered
               (keccak256 (FHEVM := test_FHEVM) "A")) = false) as Hfresh
    by (vm_compute; reflexivity).
  exact (stats_request_taken_by_performClustering (env := test_FHEVM)
           one_clustered _ "A" cleartext_B valid_proof "g" "o" "B"
           Hrequest Hhash Hfresh eq_refl eq_refl).
Defined.

(** X12 on the test instance. *)
Lemma aggregates_count_clustered_points_witness :
  aggregate_total one_clustered = clustered_events (events one_clustered)
  /\ forall c, c ∈ clusterList one_clustered ->
       1 <= FHE_decrypt (clusterStats one_clustered c)
         <= clustered_events (events one_clustered).
Proof.
  assert (clustered_events (events one_clustered) < UINT32_MODULUS) as Hfew
    by (vm_compute; reflexivity).
  exact (aggregates_count_clustered_points (env := test_FHEVM) one_clustered
           one_clustered_reachable Hfew).
Defined.

(** X13 on the test instance. *)
Lemma getEncryptedClusterStats_spec_witness :
  (FHE_isInitialized (getEncryptedClusterStats one_clustered "A") = true
   <-> "A" ∈ clusterList one_clustered)
  /\ 0 <= FHE_decrypt (getEncryptedClusterStats one_clustered "A")
       < UINT32_MODULUS
  /\ ("A" ∉ clusterList one_clustered ->
      getEncryptedClusterStats one_clustered "A" = Uninit).
Proof.
  exact (getEncryptedClusterStats_spec (env := test_FHEVM) one_clustered "A"
           one_clustered_reachable).
Defined.

(** X14 on the test instance. *)
Lemma calculateClusterCentroids_spec_witness :
  (calculateClusterCentroids (env := test_FHEVM) one_clustered "A" = Ok "" <->
     forall i, 1 <= i <= dataPointCount one_clustered ->
       is_member (env := test_FHEVM) one_clustered "A" i = false)
  /\ (calculateClusterCentroids (env := test_FHEVM) one_clustered "A"
      = Reverted (Panic PANIC_OUT_OF_BOUNDS) <->
      exists i, 1 <= i <= dataPointCount one_clustered
                /\ is_member (env := test_FHEVM) one_clustered "A" i = true)
  /\ forall s,
       calculateClusterCentroids (env := test_FHEVM) one_clustered "A" = Ok s ->
       s = "".
Proof.
  assert (dataPointCount one_clustered < MAX_UINT256) as Hmax
    by (vm_compute; reflexivity).
  exact (calculateClusterCentroids_spec (env := test_FHEVM) one_clustered "A"
           Hmax).
Defined.

(** X15 on the test instance: the registry is ["A"] and no record is
    scanned, so the call returns; the score of "f" against the empty string
    is 50. *)
Lemma findSimilarClusters_all_or_nothing_witness :
  findSimilarClusters (env := test_FHEVM) clustered_before_submission "f" 50
    = Ok (if decide (50 <= calculateSimilarity (env := test_FHEVM) "f" "")
          then clusterList clustered_before_submission else [])
  /\ findSimilarClusters (env := test_FHEVM) clustered_before_submission "f" 100
     = Ok (if decide (100 <= calculateSimilarity (env := test_FHEVM) "f" "")
           then clusterList clustered_before_submission else []).
Proof.
  assert (dataPointCount clustered_before_submission < MAX_UINT256) as Hmax
    by (vm_compute; reflexivity).
  assert (dataPointCount clustered_before_submission = 0) as Hcount
    by (vm_compute; reflexivity).
  assert (Z.of_nat (length (clusterList clustered_before_submission))
          <= MAX_UINT256) as Hlen by (vm_compute; discriminate).
  assert (forall c i, c ∈ clusterList clustered_before_submission ->
            1 <= i <= dataPointCount clustered_before_submission ->
            is_member (env := test_FHEVM) clustered_before_submission c i = false)
    as Hnone by (intros c i _ Hi; rewrite Hcount in Hi; lia).
  split.
  - exact (proj2 (findSimilarClusters_all_or_nothing (env := test_FHEVM)
                    clustered_before_submission "f" 50 Hmax Hlen) Hnone).
  - exact (proj2 (findSimilarClusters_all_or_nothing (env := test_FHEVM)
                    clustered_before_submission "f" 100 Hmax Hlen) Hnone).
Defined.
